(** * JSON flattener pipeline (main.py): model and verified properties

    The development follows the source file top to bottom:
    [sanitize_column_name], [flatten_json],
    [handle_case_insensitive_duplicates], [schema_enforcement] and
    [process_json_file].  Definitions come first, theorems afterwards.

    Conventions.
    - A Python [str] is a Rocq [string]; each [ascii] stands for one
      character with code point below 256.
    - A Python [dict] whose iteration order is observable (JSON objects,
      flat records) is an association list in insertion order; the
      look-up table [lowercase_cols], whose order is never observed, is a
      [gmap].
    - pandas and the BigQuery client are external: a frame is a list of
      labelled columns, the cast [Series.astype] and the answers of the
      store are parameters. *)

From Stdlib Require Import ZArith Ascii String DecimalString.
From stdpp Require Import base option list gmap strings.

Set Warnings "-register-all".

(** ** Python string primitives *)

(** [s.replace(old, new)] for a one-character [old]. *)
Fixpoint str_replace (old : ascii) (new : string) (s : string) : string :=
  match s with
  | EmptyString => EmptyString
  | String c s' =>
      if Ascii.eqb c old then new +:+ str_replace old new s'
      else String c (str_replace old new s')
  end.

Definition in_range (lo hi : N) (c : ascii) : bool :=
  let n := N_of_ascii c in (N.leb lo n && N.leb n hi)%bool.

Definition is_lower_az (c : ascii) : bool := in_range 97 122 c.
Definition is_upper_az (c : ascii) : bool := in_range 65 90 c.
Definition is_digit (c : ascii) : bool := in_range 48 57 c.
Definition underscore : ascii := "_"%char.

(** The character class [[a-zA-Z0-9_]]. *)
Definition is_word_char (c : ascii) : bool :=
  (is_lower_az c || is_upper_az c || is_digit c || Ascii.eqb c underscore)%bool.

(** [re.sub(r'[^a-zA-Z0-9_]', '_', s)]. *)
Fixpoint re_sub_nonword (s : string) : string :=
  match s with
  | EmptyString => EmptyString
  | String c s' =>
      String (if is_word_char c then c else underscore) (re_sub_nonword s')
  end.

(** [re.sub(r'_+', '_', s)]: every maximal run of underscores becomes one
    underscore, i.e. an underscore followed by another one is removed. *)
Fixpoint re_sub_underscores (s : string) : string :=
  match s with
  | EmptyString => EmptyString
  | String c s' =>
      match s' with
      | String c' _ =>
          if (Ascii.eqb c underscore && Ascii.eqb c' underscore)%bool
          then re_sub_underscores s'
          else String c (re_sub_underscores s')
      | EmptyString => String c EmptyString
      end
  end.

Fixpoint lstrip (x : ascii) (s : string) : string :=
  match s with
  | EmptyString => EmptyString
  | String c s' => if Ascii.eqb c x then lstrip x s' else s
  end.

Fixpoint rstrip (x : ascii) (s : string) : string :=
  match s with
  | EmptyString => EmptyString
  | String c s' =>
      match rstrip x s' with
      | EmptyString => if Ascii.eqb c x then EmptyString else String c EmptyString
      | r => String c r
      end
  end.

(** [s.strip(x)] for a one-character [x]. *)
Definition str_strip (x : ascii) (s : string) : string := rstrip x (lstrip x s).

(** [sep.join(parts)]. *)
Fixpoint str_join (sep : string) (parts : list string) : string :=
  match parts with
  | [] => EmptyString
  | [p] => p
  | p :: rest => p +:+ sep +:+ str_join sep rest
  end.

(** [s.split(sep)] for a one-character [sep]: never empty, [n] occurrences of
    [sep] give [n + 1] pieces. *)
Fixpoint str_split (sep : ascii) (s : string) : list string :=
  match s with
  | EmptyString => [EmptyString]
  | String c s' =>
      if Ascii.eqb c sep then EmptyString :: str_split sep s'
      else match str_split sep s' with
           | p :: ps => String c p :: ps
           | [] => [String c EmptyString]
           end
  end.

(** [str(n)] for an [int]. *)
Definition str_of_int (z : Z) : string := NilZero.string_of_int (Z.to_int z).
Definition str_of_nat (n : nat) : string := str_of_int (Z.of_nat n).

(** ** Name sanitizer (main.py, lines 22-36) *)

Definition sanitize_column_name (name : string) : string :=
  let name := str_replace "%"%char "percent" name in
  let name := str_replace "/"%char "_per_" name in
  let name := re_sub_nonword name in
  let name := re_sub_underscores name in
  let name := str_strip underscore name in
  name.

(** The output conditions of the sanitizer, in executable form: word
    characters only, no two underscores in a row, first and last character. *)
Fixpoint all_word (s : string) : bool :=
  match s with
  | EmptyString => true
  | String c s' => is_word_char c && all_word s'
  end.

Fixpoint no_double_underscore (s : string) : bool :=
  match s with
  | String c ((String c' _) as s') =>
      negb (Ascii.eqb c underscore && Ascii.eqb c' underscore) && no_double_underscore s'
  | _ => true
  end.

Definition starts_with (x : ascii) (s : string) : bool :=
  match s with
  | String c _ => Ascii.eqb c x
  | EmptyString => false
  end.

Fixpoint ends_with (x : ascii) (s : string) : bool :=
  match s with
  | EmptyString => false
  | String c EmptyString => Ascii.eqb c x
  | String _ s' => ends_with x s'
  end.

(** ** JSON values and Python dictionaries *)

(** What [json.loads] returns.  A [float] is carried by its [repr], which
    identifies it; no arithmetic is ever done on it by this program. *)
Inductive json : Type :=
  | JNull
  | JBool (b : bool)
  | JInt (z : Z)
  | JFloat (repr : string)
  | JStr (s : string)
  | JArr (items : list json)
  | JObj (members : list (string * json)).

(** [isinstance(v, dict)]. *)
Definition is_dict (v : json) : bool :=
  match v with JObj _ => true | _ => false end.

(** [isinstance(value, list) and all(isinstance(item, dict) for item in value)];
    [all] of an empty list is [True]. *)
Definition is_list_of_dicts (v : json) : bool :=
  match v with JArr items => forallb is_dict items | _ => false end.

(** An insertion-ordered dictionary with string keys. *)
Definition dict (V : Type) : Type := list (string * V).

(** [d[k] = v]: an existing key keeps its position, a new key goes last. *)
Fixpoint dict_set {V} (d : dict V) (k : string) (v : V) : dict V :=
  match d with
  | [] => [(k, v)]
  | (k', v') :: d' =>
      if String.eqb k' k then (k', v) :: d' else (k', v') :: dict_set d' k v
  end.

(** [d.update(other)]. *)
Definition dict_update {V} (d other : dict V) : dict V :=
  fold_left (fun acc kv => dict_set acc kv.1 kv.2) other d.

(** [d.get(k)]. *)
Fixpoint dict_get {V} (d : dict V) (k : string) : option V :=
  match d with
  | [] => None
  | (k', v') :: d' => if String.eqb k' k then Some v' else dict_get d' k
  end.

Definition dict_keys {V} (d : dict V) : list string := map fst d.

(** ** [str] and [repr] of JSON values *)

Definition hex_digit (n : N) : ascii :=
  ascii_of_N (if N.ltb n 10 then 48 + n else 87 + n).

Definition dquote : ascii := ascii_of_N 34.

Definition contains_char (x : ascii) (s : string) : bool :=
  existsb (Ascii.eqb x) (list_ascii_of_string s).

(** Printable characters above the ASCII range, for code points below 256:
    everything from U+00A1 on except the soft hyphen U+00AD. *)
Definition is_printable_high (n : N) : bool :=
  (N.leb 161 n && negb (N.eqb n 173))%bool.

Definition repr_char (quote c : ascii) : string :=
  let n := N_of_ascii c in
  if (Ascii.eqb c quote || Ascii.eqb c "\"%char)%bool then String "\"%char (String c EmptyString)
  else if N.eqb n 9 then "\t"
  else if N.eqb n 10 then "\n"
  else if N.eqb n 13 then "\r"
  else if (N.ltb n 32 || N.eqb n 127 || (N.leb 128 n && negb (is_printable_high n)))%bool
  then String "\"%char (String "x"%char
         (String (hex_digit (N.div n 16)) (String (hex_digit (N.modulo n 16)) EmptyString)))
  else String c EmptyString.

Fixpoint repr_chars (quote : ascii) (s : string) : string :=
  match s with
  | EmptyString => EmptyString
  | String c s' => repr_char quote c +:+ repr_chars quote s'
  end.

(** [repr(s)] for a [str]: single quotes unless the text has a single quote
    and no double quote. *)
Definition repr_str (s : string) : string :=
  let quote :=
    if (contains_char "'"%char s && negb (contains_char dquote s))%bool
    then dquote else "'"%char in
  String quote (repr_chars quote s) +:+ String quote EmptyString.

Fixpoint py_repr (v : json) : string :=
  match v with
  | JNull => "None"
  | JBool true => "True"
  | JBool false => "False"
  | JInt z => str_of_int z
  | JFloat r => r
  | JStr s => repr_str s
  | JArr items => "[" +:+ str_join ", " (map py_repr items) +:+ "]"
  | JObj members =>
      "{" +:+ str_join ", "
                (map (fun kv => let '(k, x) := kv in repr_str k +:+ ": " +:+ py_repr x)
                   members) +:+ "}"
  end.

(** [str(v)]: the text itself for a [str], [repr(v)] otherwise. *)
Definition py_str (v : json) : string :=
  match v with
  | JStr s => s
  | _ => py_repr v
  end.

(** ** Flattener (main.py, lines 38-67) *)

(** [f"{parent_key}{sep}{key}" if parent_key else key]. *)
Definition make_key (parent_key sep key : string) : string :=
  if String.eqb parent_key EmptyString then key
  else parent_key +:+ sep +:+ key.

(** A flat record: the dictionary a call of [flatten_json] returns. *)
Definition FlatRecord : Type := dict json.

(** The [try] block covers the whole loop; the one failure it can meet on
    parsed JSON is [nested_json.items()] on a value that is not a [dict],
    before anything is stored, so that call returns the empty record.
    (Documents nested deeper than the interpreter's recursion limit are not
    considered.) *)
Fixpoint flatten_json (nested_json : json) (parent_key sep : string) : FlatRecord :=
  match nested_json with
  | JObj members =>
      (fix items (kvs : list (string * json)) (flat_dict : FlatRecord) : FlatRecord :=
         match kvs with
         | [] => flat_dict
         | (key, value) :: rest =>
             let new_key := make_key parent_key sep key in
             items rest
               match value with
               | JObj _ => dict_update flat_dict (flatten_json value new_key sep)
               | JArr elems =>
                   if forallb is_dict elems then
                     (fix each (l : list json) (i : nat) (fd : FlatRecord) : FlatRecord :=
                        match l with
                        | [] => fd
                        | item :: l' =>
                            each l' (S i)
                              (dict_update fd
                                 (flatten_json item (new_key +:+ sep +:+ str_of_nat i) sep))
                        end) elems 0 flat_dict
                   else dict_set flat_dict new_key (JStr (str_join ", " (map py_str elems)))
               | _ => dict_set flat_dict new_key value
               end
         end) members []
  | _ => []
  end.

(** The two loops of [flatten_json], as functions of their own; the theorems
    relate them to the nested definition. *)
Fixpoint flatten_elems (new_key sep : string) (l : list json) (i : nat)
    (fd : FlatRecord) : FlatRecord :=
  match l with
  | [] => fd
  | item :: l' =>
      flatten_elems new_key sep l' (S i)
        (dict_update fd (flatten_json item (new_key +:+ sep +:+ str_of_nat i) sep))
  end.

Definition flatten_entry (parent_key sep : string) (flat_dict : FlatRecord)
    (kv : string * json) : FlatRecord :=
  let new_key := make_key parent_key sep kv.1 in
  match kv.2 with
  | JObj _ => dict_update flat_dict (flatten_json kv.2 new_key sep)
  | JArr elems =>
      if forallb is_dict elems then flatten_elems new_key sep elems 0 flat_dict
      else dict_set flat_dict new_key (JStr (str_join ", " (map py_str elems)))
  | _ => dict_set flat_dict new_key kv.2
  end.

(** [enumerate(l)]: the elements with their 0-based positions. *)
Definition enumerate {A} (l : list A) : list (nat * A) := zip (seq 0 (length l)) l.

(** One turn of the loop of lines 56-57: flatten the element under the prefix
    [new_key + sep + index] and merge the pairs into the record. *)
Definition merge_elem (new_key sep : string) (fd : FlatRecord) (ix : nat * json)
    : FlatRecord :=
  dict_update fd (flatten_json ix.2 (new_key +:+ sep +:+ str_of_nat ix.1) sep).

(** Line 176: [isinstance(value, list) and all(...)] on a member. *)
Definition qualifies (kv : string * json) : bool := is_list_of_dicts kv.2.

(** ** Frames (the part of pandas the program uses) *)

(** A cell of a frame: a missing entry ([NaN], [NaT], [pd.NA]), a scalar
    taken from the JSON document, or a timestamp.  The dtype of a column is
    not stored: a cast shows in the cells it returns. *)
Inductive cell : Type :=
  | Missing
  | Val (v : json)
  | Timestamp (t : Z).

(** [pd.isna]: missing entries, [None] and the float [nan]. *)
Definition isna (c : cell) : bool :=
  match c with
  | Missing => true
  | Val JNull => true
  | Val (JFloat r) => String.eqb r "nan"
  | _ => false
  end.

Definition Series : Type := list cell.

(** A frame: the length of its index and its labelled columns, in order.
    Labels may repeat, as in pandas. *)
Record DataFrame : Type := mkFrame {
  nrows : nat;
  data : list (string * Series)
}.

(** [df.columns]. *)
Definition columns (df : DataFrame) : list string := map fst (data df).

(** Keys in order of first appearance over a list of records. *)
Fixpoint union_keys (seen : list string) (keys : list string) : list string :=
  match keys with
  | [] => seen
  | k :: ks =>
      union_keys (if existsb (String.eqb k) seen then seen else seen ++ [k]) ks
  end.

Definition record_cell (r : FlatRecord) (c : string) : cell :=
  match dict_get r c with
  | Some v => Val v
  | None => Missing
  end.

(** [pd.DataFrame(records)] for a list of dictionaries: one row per record,
    one column per key, a missing entry where a record lacks the key. *)
Definition frame_of_records (records : list FlatRecord) : DataFrame :=
  let cols := fold_left (fun seen r => union_keys seen (dict_keys r)) records [] in
  mkFrame (length records)
    (map (fun c => (c, map (fun r => record_cell r c) records)) cols).

(** [df.columns = new_labels] (same number of labels). *)
Definition set_columns (df : DataFrame) (new_labels : list string) : DataFrame :=
  mkFrame (nrows df) (zip new_labels (map snd (data df))).

(** [df[col]] read as a Series.  pandas hands back a Series only when the
    label occurs once.  An absent label raises [KeyError]; for a repeated
    label the result is a sub-frame, not a Series, and that case is outside
    this model.  Both are [None] here, and every theorem below that reads a
    column assumes pairwise distinct labels. *)
Definition frame_get (df : DataFrame) (col : string) : option Series :=
  match filter (fun kv => kv.1 = col) (data df) with
  | [(_, s)] => Some s
  | _ => None
  end.

(** [df[col] = s]: an existing label keeps its place, a new one goes last. *)
Definition frame_set (df : DataFrame) (col : string) (s : Series) : DataFrame :=
  mkFrame (nrows df)
    (if existsb (String.eqb col) (columns df)
     then map (fun kv => if String.eqb kv.1 col then (kv.1, s) else kv) (data df)
     else data df ++ [(col, s)]).

(** [df.drop(columns=labels)]. *)
Definition frame_drop (df : DataFrame) (labels : list string) : DataFrame :=
  mkFrame (nrows df)
    (filter (fun kv => negb (existsb (String.eqb kv.1) labels)) (data df)).

(** [a.combine_first(b)] on two columns of one frame: row by row, the value
    of [a] unless it is null. *)
Fixpoint combine_first (a b : Series) : Series :=
  match a, b with
  | x :: a', y :: b' => (if isna x then y else x) :: combine_first a' b'
  | _, _ => a
  end.

(** [s.lower()] on code points below 256: [A-Z] and U+00C0..U+00DE except
    the multiplication sign U+00D7 move up by 32. *)
Definition lower_char (c : ascii) : ascii :=
  let n := N_of_ascii c in
  if (is_upper_az c || (N.leb 192 n && N.leb n 222 && negb (N.eqb n 215)))%bool
  then ascii_of_N (n + 32) else c.

Fixpoint str_lower (s : string) : string :=
  match s with
  | EmptyString => EmptyString
  | String c s' => String (lower_char c) (str_lower s')
  end.

(** ** Column reconciler (main.py, lines 69-93) *)

(** The loop over [df.columns]; the state is the frame (assigned in place),
    [lowercase_cols] and [columns_to_drop]. *)
Fixpoint merge_loop (cols : list string) (df : DataFrame)
    (lowercase_cols : gmap string string) (columns_to_drop : list string)
    : option (DataFrame * list string) :=
  match cols with
  | [] => Some (df, columns_to_drop)
  | col :: rest =>
      let lower_col := str_lower col in
      match lowercase_cols !! lower_col with
      | Some existing_col =>
          a ← frame_get df existing_col;
          b ← frame_get df col;
          merge_loop rest (frame_set df existing_col (combine_first a b))
            lowercase_cols (columns_to_drop ++ [col])
      | None =>
          merge_loop rest df (<[lower_col := col]> lowercase_cols) columns_to_drop
      end
  end.

Definition handle_case_insensitive_duplicates (df : DataFrame) : option DataFrame :=
  '(df', columns_to_drop) ← merge_loop (columns df) df ∅ [];
  Some (frame_drop df' columns_to_drop).

(** Notions used to state what the reconciler computes. *)

(** The first label of [labels] with the lower-case form of [c]. *)
Definition canonical_of (labels : list string) (c : string) : option string :=
  head (filter (fun d => str_lower d = str_lower c) labels).

(** The columns of [df] whose label differs from [c] by letter case only, in
    column order. *)
Definition case_duplicates (df : DataFrame) (c : string) : list Series :=
  map snd (filter (fun kv => str_lower kv.1 = str_lower c /\ kv.1 <> c) (data df)).

(** First-non-null-wins over one row: [x] from the canonical column, then
    the values of the duplicates in order. *)
Definition coalesce (x : cell) (ys : list cell) : cell :=
  fold_left (fun a b => if isna a then b else a) ys x.

(** The canonical label of [c] in the middle of the loop: the one recorded in
    [lowercase_cols], else the first of the columns still to come. *)
Definition canon (lowercase_cols : gmap string string) (cols : list string)
    (c : string) : option string :=
  match lowercase_cols !! str_lower c with
  | Some e => Some e
  | None => canonical_of cols c
  end.

(** ** Console output and effects *)

(** What a run leaves behind: the lines it prints and the append it sends to
    the store.  The text of a caught exception is not modelled; a
    [PrintError] keeps the fixed prefix of the line. *)
Inductive effect : Type :=
  | Print (line : string)
  | PrintError (prefix : string)
  | ToGbq (destination_table project_id : string) (df : DataFrame).

Definition is_write (e : effect) : bool :=
  match e with ToGbq _ _ _ => true | _ => false end.

(** ** Schema enforcer (main.py, lines 95-150) *)

(** Targets of a cast: the values of [type_mapping] and the two the loop
    substitutes for them. *)
Inductive dtype : Type :=
  | Dobject | Dint64 | Dfloat | Dbool | Ddatetime64 | DInt64 | Dstr.

Definition dtype_eqb (a b : dtype) : bool :=
  match a, b with
  | Dobject, Dobject | Dint64, Dint64 | Dfloat, Dfloat | Dbool, Dbool
  | Ddatetime64, Ddatetime64 | DInt64, DInt64 | Dstr, Dstr => true
  | _, _ => false
  end.

(** [type_mapping.get(bq_type, None)]. *)
Definition type_mapping (bq_type : string) : option dtype :=
  if String.eqb bq_type "STRING" then Some Dobject
  else if String.eqb bq_type "INTEGER" then Some Dint64
  else if String.eqb bq_type "FLOAT" then Some Dfloat
  else if String.eqb bq_type "BOOLEAN" then Some Dbool
  else if String.eqb bq_type "DATE" then Some Ddatetime64
  else if String.eqb bq_type "DATETIME" then Some Ddatetime64
  else if String.eqb bq_type "TIMESTAMP" then Some Ddatetime64
  else if String.eqb bq_type "NUMERIC" then Some Dfloat
  else if String.eqb bq_type "BIGNUMERIC" then Some Dfloat
  else None.

(** Lines 139-142: ['int64'] becomes the nullable ['Int64'], [object]
    becomes [str]. *)
Definition cast_target (pandas_type : dtype) : dtype :=
  if dtype_eqb pandas_type Dint64 then DInt64
  else if dtype_eqb pandas_type Dobject then Dstr
  else pandas_type.

(** What [bigquery_client.get_table(table_id)] can do: return a table with
    its schema (field name, field type), raise [NotFound], or raise anything
    else. *)
Inductive table_lookup : Type :=
  | TableFound (schema : list (string * string))
  | TableNotFound
  | LookupFailed.

(** [{field.name: field.field_type for field in table.schema}]. *)
Definition schema_dict (schema : list (string * string)) : dict string :=
  fold_left (fun d f => dict_set d f.1 f.2) schema [].

Definition no_mapping_line (bq_type column : string) : string :=
  "No mapping for BigQuery type '" +:+ bq_type +:+ "' for column '" +:+ column +:+ "'".

(** The cast the loop asks for on a column: none when the column is not in
    the schema or its declared type has no entry in [type_mapping]. *)
Definition cast_of (existing_schema : dict string) (column : string) : option dtype :=
  match dict_get existing_schema column with
  | Some bq_type => option_map cast_target (type_mapping bq_type)
  | None => None
  end.

Section Enforcer.

(** [series.astype(target)]; [None] when the cast raises. *)
Variable astype : dtype -> Series -> option Series.

(** The loop over [df.dtypes.items()].  The frame is assigned in place, so
    an exception leaves the columns cast so far as they are; the result is
    the frame, the lines printed and whether an exception escaped the
    loop. *)
Fixpoint enforce_loop (existing_schema : dict string) (cols : list string)
    (df : DataFrame) (out : list effect) : DataFrame * list effect * bool :=
  match cols with
  | [] => (df, out, false)
  | column :: rest =>
      match dict_get existing_schema column with
      | Some bq_type =>
          match type_mapping bq_type with
          | Some pandas_type =>
              match frame_get df column ≫= astype (cast_target pandas_type) with
              | Some s => enforce_loop existing_schema rest (frame_set df column s) out
              | None => (df, out, true)
              end
          | None =>
              enforce_loop existing_schema rest df
                (out ++ [Print (no_mapping_line bq_type column)])
          end
      | None => enforce_loop existing_schema rest df out
      end
  end.

(** [schema_enforcement(df, table_id)], given the answer of the store.
    [None] is an exception that leaves the function (a failed look-up is
    outside the second [try]). *)
Definition schema_enforcement (lookup : table_lookup) (df : DataFrame)
    : option (DataFrame * list effect) :=
  match lookup with
  | LookupFailed => None
  | TableNotFound => Some (df, [])
  | TableFound schema =>
      let out := [Print "Table already exist. Handling schema type mismatch."] in
      let '(df', out', raised) :=
        enforce_loop (schema_dict schema) (columns df) df out in
      Some (df', if raised then out' ++ [PrintError "Error upgrading datatype : "] else out')
  end.

(** ** Orchestrator (main.py, lines 152-218) *)

(** The trigger event. *)
Record Event : Type := mkEvent {
  event_name : string;
  event_bucket : string
}.

(** Everything the run takes from outside: the parsed blob ([None] when
    the download or [json.loads] raises), the project of the client, the
    configured dataset, the answer of [get_table], the clock and whether
    the append succeeds. *)
Record World : Type := mkWorld {
  blob_json : option json;
  project : string;
  dataset_name : string;
  get_table : string -> table_lookup;
  utcnow : Z;
  to_gbq_ok : bool
}.

(** One turn of the loop of lines 175-177. *)
Definition dispatch_step (flattened_data : list FlatRecord) (kv : string * json)
    : list FlatRecord :=
  match kv.2 with
  | JArr items =>
      if forallb is_dict items
      then map (fun item => flatten_json item EmptyString "_") items
      else flattened_data
  | _ => flattened_data
  end.

(** Lines 173-179.  [None]: the document is neither an object nor an
    array, and [flattened_data] is never bound. *)
Definition flatten_top (json_data : json) : option (list FlatRecord) :=
  match json_data with
  | JObj members =>
      Some (fold_left dispatch_step members [flatten_json json_data EmptyString "_"])
  | JArr items => Some (map (fun item => flatten_json item EmptyString "_") items)
  | _ => None
  end.

(** [os.path.basename] (POSIX). *)
Definition basename (path : string) : string :=
  List.last (str_split "/"%char path) EmptyString.

(** [l[:-2]]. *)
Definition drop_last_two {A} (l : list A) : list A := take (length l - 2) l.

(** Lines 196-198. *)
Definition table_name_of (file_name : string) : string :=
  let source_file_name := basename file_name in
  let base_name := List.hd EmptyString (str_split "."%char source_file_name) in
  str_join "_" (drop_last_two (str_split "_"%char base_name)).

Definition table_id_of (w : World) (file_name : string) : string :=
  project w +:+ "." +:+ dataset_name w +:+ "." +:+ table_name_of file_name.

Definition empty_source_line (file_name : string) : string :=
  "Empty source file: " +:+ file_name +:+ ".".

Definition error_line : effect := PrintError "Error processing JSON file: ".

(** Lines 186-215, after the check for an empty source. *)
Definition load_rows (w : World) (file_name : string)
    (flattened_data : list FlatRecord) (out : list effect) : list effect :=
  let df := frame_of_records flattened_data in
  let df := set_columns df (map sanitize_column_name (columns df)) in
  match handle_case_insensitive_duplicates df with
  | None => out ++ [error_line]
  | Some df =>
      let source_file_name := basename file_name in
      let table_id := table_id_of w file_name in
      match schema_enforcement (get_table w table_id) df with
      | None => out ++ [error_line]
      | Some (df, out') =>
          let df := frame_set df "create_date" (repeat (Timestamp (utcnow w)) (nrows df)) in
          let df := frame_set df "source_file_name"
                      (repeat (Val (JStr source_file_name)) (nrows df)) in
          let out := out ++ out' ++
            [Print ("Inserting data from file " +:+ file_name +:+
                    " into BigQuery table " +:+ table_id);
             ToGbq table_id (project w) df] in
          if to_gbq_ok w
          then out ++ [Print ("Data successfully inserted into " +:+ table_id +:+ ".")]
          else out ++ [error_line]
      end
  end.

(** [process_json_file(event, context)]: the value returned (Python's
    [None] is [None]) and the effects, in order. *)
Definition process_json_file (w : World) (event : Event)
    : option (string * Z) * list effect :=
  let file_name := event_name event in
  let bucket_name := event_bucket event in
  let out :=
    [Print ("Processing file: " +:+ file_name +:+ " from bucket: " +:+ bucket_name);
     Print ("Downloading file " +:+ file_name +:+ " from bucket " +:+ bucket_name)] in
  match blob_json w with
  | None => (None, out ++ [error_line])
  | Some json_data =>
      let out := out ++
        [Print ("File " +:+ file_name +:+ " downloaded successfully.");
         Print ("Flattening JSON data for file " +:+ file_name)] in
      match flatten_top json_data with
      | None => (None, out ++ [Print "JSON data flattened successfully."; error_line])
      | Some flattened_data =>
          let out := out ++ [Print "JSON data flattened successfully."] in
          match flattened_data with
          | [] =>
              (Some (empty_source_line file_name, 200%Z),
               out ++ [Print (empty_source_line file_name)])
          | _ => (None, load_rows w file_name flattened_data out)
          end
      end
  end.

End Enforcer.

(** ** The table name as the specification words it

    "Take the base filename, strip its extension, split on [_], drop the
    last two segments, rejoin with [_]": the extension is what follows the
    last dot of the base filename. *)

Definition count_char (x : ascii) (s : string) : nat :=
  length (filter (fun c => c = x) (list_ascii_of_string s)).

Definition strip_extension (base : string) : string :=
  match str_split "."%char base with
  | [] | [_] => base
  | parts => str_join "." (removelast parts)
  end.

Definition table_short_name_spec (file_name : string) : string :=
  str_join "_" (drop_last_two (str_split "_"%char (strip_extension (basename file_name)))).

(** ** A concrete cast, for evaluating the enforcer on examples

    It covers the two casts the examples use, on the cells they contain:
    to text, and to the nullable integer type from integers and from plain
    decimal digit strings.  Every other combination is left out ([None]). *)

Fixpoint digits_value (acc : Z) (s : string) : option Z :=
  match s with
  | EmptyString => Some acc
  | String c s' =>
      if is_digit c
      then digits_value (10 * acc + Z.of_N (N_of_ascii c - 48)) s'
      else None
  end.

Definition cell_to_Int64 (c : cell) : option cell :=
  match c with
  | Missing => Some Missing
  | Val (JInt z) => Some (Val (JInt z))
  | Val (JStr (String c s)) => option_map (fun z => Val (JInt z)) (digits_value 0 (String c s))
  | _ => None
  end.

Definition cell_to_str (c : cell) : option cell :=
  match c with
  | Val (JInt z) => Some (Val (JStr (str_of_int z)))
  | Val (JStr s) => Some (Val (JStr s))
  | _ => None
  end.

Definition astype_sample (target : dtype) (s : Series) : option Series :=
  match target with
  | DInt64 => mapM cell_to_Int64 s
  | Dstr => mapM cell_to_str s
  | _ => None
  end.

(** ** Sample runs *)

Definition sample_event : Event :=
  mkEvent "incoming/sales_report_2024_01_15_103000.json" "landing".

(** A world in which the destination table does not exist yet and the append
    succeeds. *)
Definition sample_world (json_data : json) : World :=
  mkWorld (Some json_data) "proj" "analytics" (fun _ => TableNotFound) 0 true.

(** Two records whose keys meet in three case variants. *)
Definition sample_records : list FlatRecord :=
  [[("Name", JStr "ann"); ("age", JInt 3)];
   [("name", JStr "bob"); ("Name", JNull); ("AGE", JInt 4)]].

Definition sample_frame : DataFrame := frame_of_records sample_records.

(** A batch of one row and the schema of its table: [code] can be cast to
    text, [age] cannot be cast to an integer, [zip] could be cast to text. *)
Definition sample_batch : DataFrame :=
  frame_of_records [[("code", JInt 5); ("age", JStr "thirty"); ("zip", JInt 1)]].

Definition sample_schema : list (string * string) :=
  [("code", "STRING"); ("age", "INTEGER"); ("zip", "STRING")].

(** ** Notions used to state further properties *)

(** Letters and digits, i.e. the word characters other than the underscore. *)
Definition is_alnum (c : ascii) : bool :=
  (is_lower_az c || is_upper_az c || is_digit c)%bool.

(** The letters and digits of a string, in order. *)
Fixpoint alnum_only (s : string) : string :=
  match s with
  | EmptyString => EmptyString
  | String c s' => if is_alnum c then String c (alnum_only s') else alnum_only s'
  end.

Definition has_alnum (s : string) : bool :=
  existsb is_alnum (list_ascii_of_string s).

(** A JSON value that is neither an object nor an array. *)
Definition is_scalar (v : json) : bool :=
  match v with
  | JObj _ | JArr _ => false
  | _ => true
  end.

(** The four output conditions of the sanitizer together. *)
Definition safe_name (c : string) : bool :=
  all_word c && no_double_underscore c &&
  negb (starts_with underscore c) && negb (ends_with underscore c).

(** The appends among the effects of a run. *)
Definition writes (out : list effect) : list effect :=
  filter (fun e => is_write e) out.

(** The line the enforcer prints for a column whose declared type has no
    entry in [type_mapping]. *)
Definition unmapped_line (existing_schema : dict string) (column : string)
    : option effect :=
  match dict_get existing_schema column with
  | Some bq_type =>
      match type_mapping bq_type with
      | Some _ => None
      | None => Some (Print (no_mapping_line bq_type column))
      end
  | None => None
  end.

(** The frame handed to the store, given the frame the enforcer returned. *)
Definition stamped (w : World) (file_name : string) (df : DataFrame) : DataFrame :=
  frame_set
    (frame_set df "create_date" (repeat (Timestamp (utcnow w)) (nrows df)))
    "source_file_name" (repeat (Val (JStr (basename file_name))) (nrows df)).

(** * Theorems *)

(** ** Name sanitizer *)

Section SanitizerFacts.

Lemma re_sub_underscores_cons a b s :
  re_sub_underscores (String a (String b s)) =
  if Ascii.eqb a underscore && Ascii.eqb b underscore
  then re_sub_underscores (String b s)
  else String a (re_sub_underscores (String b s)).
Proof. reflexivity. Qed.

Lemma all_word_cons a s : all_word (String a s) = is_word_char a && all_word s.
Proof. reflexivity. Qed.

Lemma no_double_underscore_cons a b s :
  no_double_underscore (String a (String b s)) =
  negb (Ascii.eqb a underscore && Ascii.eqb b underscore) &&
  no_double_underscore (String b s).
Proof. reflexivity. Qed.

Lemma all_word_get s :
  all_word s = true -> forall i c, String.get i s = Some c -> is_word_char c = true.
Proof.
  induction s as [|a s IH]; simpl; intros H i c Hget; [discriminate|].
  apply andb_prop in H as [Ha Hs].
  destruct i as [|i]; [by inversion Hget; subst | eauto].
Qed.

Lemma no_double_underscore_get s :
  no_double_underscore s = true ->
  forall i, ~ (String.get i s = Some underscore /\ String.get (S i) s = Some underscore).
Proof.
  induction s as [|a s IH]; intros H i [H1 H2]; [discriminate|].
  destruct s as [|b s]; [by destruct i|].
  simpl in H. apply andb_prop in H as [Hab Hs].
  destruct i as [|i].
  - simpl in H1, H2. inversion H1; inversion H2; subst. discriminate.
  - apply (IH Hs i). split; assumption.
Qed.

Lemma starts_with_get x s : starts_with x s = false -> String.get 0 s <> Some x.
Proof.
  destruct s as [|a s]; simpl; [discriminate|].
  intros H [= ->]. by rewrite Ascii.eqb_refl in H.
Qed.

Lemma ends_with_get x s :
  ends_with x s = false -> String.get (String.length s - 1) s <> Some x.
Proof.
  induction s as [|a s IH]; [discriminate|].
  destruct s as [|b s].
  - simpl. intros H [= ->]. by rewrite Ascii.eqb_refl in H.
  - intros H. specialize (IH H).
    change (String.length (String a (String b s)) - 1) with (S (String.length s)).
    simpl in IH. rewrite Nat.sub_0_r in IH. exact IH.
Qed.

(** Step 3 leaves word characters only. *)
Lemma all_word_re_sub_nonword s : all_word (re_sub_nonword s) = true.
Proof.
  induction s as [|a s IH]; simpl; [done|].
  rewrite IH, andb_true_r. by destruct (is_word_char a) eqn:E.
Qed.

(** Step 4 keeps them and leaves no two underscores in a row. *)
Lemma all_word_re_sub_underscores s :
  all_word s = true -> all_word (re_sub_underscores s) = true.
Proof.
  induction s as [|a s IH]; [done|].
  intros H. simpl in H. apply andb_prop in H as [Ha Hs].
  specialize (IH Hs). destruct s as [|b s]; [by simpl; rewrite Ha|].
  rewrite re_sub_underscores_cons.
  destruct (_ && _); [done|]. by rewrite all_word_cons, Ha, IH.
Qed.

Lemma re_sub_underscores_head b s :
  exists t, re_sub_underscores (String b s) = String b t.
Proof.
  revert b. induction s as [|c s IH]; intros b; [by eexists|].
  rewrite re_sub_underscores_cons.
  destruct (Ascii.eqb b underscore && Ascii.eqb c underscore) eqn:E; [|by eexists].
  apply andb_prop in E as [Eb Ec].
  apply Ascii.eqb_eq in Eb, Ec. subst. apply IH.
Qed.

Lemma no_double_underscore_re_sub s :
  no_double_underscore (re_sub_underscores s) = true.
Proof.
  induction s as [|a s IH]; [done|].
  destruct s as [|b s]; [done|].
  rewrite re_sub_underscores_cons.
  destruct (Ascii.eqb a underscore && Ascii.eqb b underscore) eqn:E; [done|].
  destruct (re_sub_underscores_head b s) as [t Ht].
  rewrite Ht in IH |- *. by rewrite no_double_underscore_cons, E, IH.
Qed.

(** Step 5 keeps both and removes the underscores at the two ends. *)
Lemma all_word_lstrip x s : all_word s = true -> all_word (lstrip x s) = true.
Proof.
  induction s as [|a s IH]; [done|]. intros H. simpl.
  destruct (Ascii.eqb a x); [|done].
  simpl in H. apply andb_prop in H as [_ Hs]. auto.
Qed.

Lemma all_word_rstrip x s : all_word s = true -> all_word (rstrip x s) = true.
Proof.
  induction s as [|a s IH]; [done|]. intros H. simpl in H |- *.
  apply andb_prop in H as [Ha Hs]. specialize (IH Hs).
  destruct (rstrip x s) as [|b t].
  - destruct (Ascii.eqb a x); [done|]. simpl. by rewrite Ha.
  - by rewrite all_word_cons, Ha, IH.
Qed.

Lemma no_double_underscore_tail a s :
  no_double_underscore (String a s) = true -> no_double_underscore s = true.
Proof. destruct s; [done|]. simpl. intros H. by apply andb_prop in H as [_ H]. Qed.

Lemma no_double_underscore_lstrip x s :
  no_double_underscore s = true -> no_double_underscore (lstrip x s) = true.
Proof.
  induction s as [|a s IH]; [done|]. intros H. simpl.
  destruct (Ascii.eqb a x); [|done].
  apply IH. by eapply no_double_underscore_tail.
Qed.

Lemma rstrip_head x b s t : rstrip x s = String b t -> exists s', s = String b s'.
Proof.
  destruct s as [|a s]; [done|]. simpl.
  destruct (rstrip x s); [destruct (Ascii.eqb a x)|]; intros [= -> _]; by eexists.
Qed.

Lemma no_double_underscore_rstrip x s :
  no_double_underscore s = true -> no_double_underscore (rstrip x s) = true.
Proof.
  induction s as [|a s IH]; [done|]. intros H.
  specialize (IH (no_double_underscore_tail _ _ H)). simpl.
  destruct (rstrip x s) as [|b t] eqn:E; [by destruct (Ascii.eqb a x)|].
  destruct (rstrip_head _ _ _ _ E) as [s' ->].
  simpl in H. apply andb_prop in H as [Hab _].
  by rewrite no_double_underscore_cons, Hab, IH.
Qed.

Lemma starts_with_lstrip x s : starts_with x (lstrip x s) = false.
Proof.
  induction s as [|a s IH]; [done|]. simpl.
  destruct (Ascii.eqb a x) eqn:E; [done|]. simpl. exact E.
Qed.

Lemma starts_with_rstrip x s :
  starts_with x s = false -> starts_with x (rstrip x s) = false.
Proof.
  destruct s as [|a s]; [done|]. simpl. intros H.
  destruct (rstrip x s); [by rewrite H|done].
Qed.

Lemma ends_with_rstrip x s : ends_with x (rstrip x s) = false.
Proof.
  induction s as [|a s IH]; [done|]. simpl.
  destruct (rstrip x s) as [|b t] eqn:E.
  - destruct (Ascii.eqb a x) eqn:Ea; [done|]. simpl. exact Ea.
  - exact IH.
Qed.

(** On a string that already meets the output conditions every step is the
    identity. *)
Lemma str_replace_id old new s :
  contains_char old s = false -> str_replace old new s = s.
Proof.
  unfold contains_char. induction s as [|a s IH]; [done|]. simpl.
  intros H. apply orb_false_elim in H as [Ha Hs].
  rewrite Ascii.eqb_sym, Ha. by rewrite IH.
Qed.

Lemma all_word_contains_char x s :
  is_word_char x = false -> all_word s = true -> contains_char x s = false.
Proof.
  unfold contains_char. intros Hx. induction s as [|a s IH]; [done|]. simpl.
  intros H. apply andb_prop in H as [Ha Hs]. rewrite (IH Hs), orb_false_r.
  destruct (Ascii.eqb_spec x a); [congruence|done].
Qed.

Lemma re_sub_nonword_id s : all_word s = true -> re_sub_nonword s = s.
Proof.
  induction s as [|a s IH]; [done|]. simpl. intros H.
  apply andb_prop in H as [Ha Hs]. by rewrite Ha, IH.
Qed.

Lemma re_sub_underscores_id s :
  no_double_underscore s = true -> re_sub_underscores s = s.
Proof.
  induction s as [|a s IH]; [done|]. intros H.
  specialize (IH (no_double_underscore_tail _ _ H)).
  destruct s as [|b s]; [done|].
  simpl in H. apply andb_prop in H as [Hab _]. apply negb_true_iff in Hab.
  rewrite re_sub_underscores_cons.
  by rewrite Hab, IH.
Qed.

Lemma lstrip_id x s : starts_with x s = false -> lstrip x s = s.
Proof. destruct s as [|a s]; [done|]. simpl. by intros ->. Qed.

Lemma rstrip_id x s : ends_with x s = false -> rstrip x s = s.
Proof.
  induction s as [|a s IH]; [done|]. destruct s as [|b s].
  - simpl. by intros ->.
  - intros H. change (ends_with x (String a (String b s))) with
      (ends_with x (String b s)) in H.
    specialize (IH H). simpl in IH |- *. by rewrite IH.
Qed.

Lemma sanitize_column_name_conditions name :
  let out := sanitize_column_name name in
  all_word out = true /\ no_double_underscore out = true /\
  starts_with underscore out = false /\ ends_with underscore out = false.
Proof.
  unfold sanitize_column_name, str_strip. cbv zeta.
  set (s3 := re_sub_nonword _).
  assert (H3 : all_word s3 = true) by apply all_word_re_sub_nonword.
  assert (H4 : all_word (re_sub_underscores s3) = true)
    by by apply all_word_re_sub_underscores.
  assert (D4 := no_double_underscore_re_sub s3).
  repeat split.
  - by apply all_word_rstrip, all_word_lstrip.
  - by apply no_double_underscore_rstrip, no_double_underscore_lstrip.
  - apply starts_with_rstrip, starts_with_lstrip.
  - apply ends_with_rstrip.
Qed.

End SanitizerFacts.

(** C5. For every input string the output of [sanitize_column_name] holds
    only characters of [[A-Za-z0-9_]], neither starts nor ends with an
    underscore and never has two underscores in a row; the function is total
    (the empty string included), and ["Revenue %/Total"] becomes
    ["Revenue_percent_per_Total"]. *)
Theorem sanitize_column_name_safe (name : string) :
  let out := sanitize_column_name name in
  (forall i c, String.get i out = Some c -> is_word_char c = true) /\
  String.get 0 out <> Some underscore /\
  String.get (String.length out - 1) out <> Some underscore /\
  (forall i, ~ (String.get i out = Some underscore /\
                String.get (S i) out = Some underscore)) /\
  sanitize_column_name EmptyString = EmptyString /\
  sanitize_column_name "Revenue %/Total" = "Revenue_percent_per_Total".
Proof.
  destruct (sanitize_column_name_conditions name) as (Hw & Hd & Hs & He).
  cbv zeta. split; [by apply all_word_get|].
  split; [by apply starts_with_get|].
  split; [by apply ends_with_get|].
  split; [by apply no_double_underscore_get|].
  split; reflexivity.
Qed.

(** C6. [sanitize_column_name] is idempotent. *)
Theorem sanitize_column_name_idempotent (x : string) :
  sanitize_column_name (sanitize_column_name x) = sanitize_column_name x.
Proof.
  destruct (sanitize_column_name_conditions x) as (Hw & Hd & Hs & He).
  cbv zeta in *. set (y := sanitize_column_name x) in *.
  unfold sanitize_column_name at 1. unfold str_strip.
  rewrite (str_replace_id "%"%char) by (by apply all_word_contains_char).
  rewrite (str_replace_id "/"%char) by (by apply all_word_contains_char).
  rewrite re_sub_nonword_id by done.
  rewrite re_sub_underscores_id by done.
  rewrite lstrip_id by done. by apply rstrip_id.
Qed.

(** ** Flattener *)

Section FlattenerFacts.

Variables parent_key sep : string.

Lemma flatten_elems_unfold new_key elems i fd :
  (fix each (l : list json) (i : nat) (fd : FlatRecord) : FlatRecord :=
     match l with
     | [] => fd
     | item :: l' =>
         each l' (S i)
           (dict_update fd (flatten_json item (new_key +:+ sep +:+ str_of_nat i) sep))
     end) elems i fd = flatten_elems new_key sep elems i fd.
Proof. revert i fd. induction elems as [|item l IH]; intros i fd; [done|]. apply IH. Qed.

(** The loop over [nested_json.items()] is a left fold of [flatten_entry]
    that starts from the empty record. *)
Lemma flatten_json_obj members :
  flatten_json (JObj members) parent_key sep =
  fold_left (flatten_entry parent_key sep) members [].
Proof.
  simpl. generalize (@nil (string * json)).
  induction members as [|[key value] rest IH]; intros fd; [done|].
  simpl fold_left. rewrite <- IH. f_equal.
  unfold flatten_entry. simpl.
  destruct value; try reflexivity.
  destruct (forallb is_dict items); [|reflexivity].
  apply flatten_elems_unfold.
Qed.

(** Members are handled one after the other: the record built from a prefix
    of the members is the state in which the next member is handled. *)
Lemma flatten_json_obj_app pre post :
  flatten_json (JObj (pre ++ post)) parent_key sep =
  fold_left (flatten_entry parent_key sep) post (flatten_json (JObj pre) parent_key sep).
Proof. by rewrite !flatten_json_obj, fold_left_app. Qed.

Lemma flatten_elems_enumerate new_key elems i fd :
  flatten_elems new_key sep elems i fd =
  fold_left (merge_elem new_key sep) (zip (seq i (length elems)) elems) fd.
Proof. revert i fd. induction elems as [|item l IH]; intros i fd; [done|]. apply IH. Qed.

Lemma forallb_is_dict_false elems :
  (exists x, In x elems /\ is_dict x = false) -> forallb is_dict elems = false.
Proof.
  intros (x & Hin & Hx). apply not_true_is_false. intros H.
  rewrite forallb_forall in H. specialize (H x Hin). congruence.
Qed.

End FlattenerFacts.

(** C7. A member whose value is an array of objects only is handled by
    flattening each element under the prefix [new_key + sep + index], indices
    counted from 0, and merging every resulting pair into the one record
    being built; [{"a": [{"x": 1}, {"x": 2}]}] gives the single record
    [{"a_0_x": 1, "a_1_x": 2}]. *)
Theorem flatten_json_array_of_objects
    (parent_key sep key : string) (elems : list json) (pre post : list (string * json)) :
  forallb is_dict elems = true ->
  flatten_json (JObj (pre ++ (key, JArr elems) :: post)) parent_key sep =
    fold_left (flatten_entry parent_key sep) post
      (fold_left (merge_elem (make_key parent_key sep key) sep) (enumerate elems)
         (flatten_json (JObj pre) parent_key sep)) /\
  flatten_json
    (JObj [("a", JArr [JObj [("x", JInt 1)]; JObj [("x", JInt 2)]])]) EmptyString "_" =
    [("a_0_x", JInt 1); ("a_1_x", JInt 2)].
Proof.
  intros Hall. split; [|reflexivity].
  rewrite flatten_json_obj_app. simpl fold_left at 1. f_equal.
  unfold flatten_entry at 1. simpl. rewrite Hall.
  apply flatten_elems_enumerate.
Qed.

Lemma flatten_json_array_of_objects_witness :
  flatten_json
    (JObj ([("id", JInt 7)] ++
           ("a", JArr [JObj [("x", JInt 1)]; JObj [("x", JInt 2)]]) :: [("z", JNull)]))
    "row" "_" =
  [("row_id", JInt 7); ("row_a_0_x", JInt 1); ("row_a_1_x", JInt 2); ("row_z", JNull)].
Proof.
  destruct (flatten_json_array_of_objects "row" "_" "a"
              [JObj [("x", JInt 1)]; JObj [("x", JInt 2)]]
              [("id", JInt 7)] [("z", JNull)] eq_refl) as [H _].
  rewrite H. reflexivity.
Defined.

(** C8. A member whose value is an array with at least one element that is
    not an object is stored under [new_key] as one string: the [str] of every
    element, joined with [", "]; [{"tags": ["a", "b", "c"]}] gives
    [{"tags": "a, b, c"}]. *)
Theorem flatten_json_array_joined
    (parent_key sep key : string) (elems : list json) (pre post : list (string * json)) :
  (exists x, In x elems /\ is_dict x = false) ->
  flatten_json (JObj (pre ++ (key, JArr elems) :: post)) parent_key sep =
    fold_left (flatten_entry parent_key sep) post
      (dict_set (flatten_json (JObj pre) parent_key sep)
         (make_key parent_key sep key) (JStr (str_join ", " (map py_str elems)))) /\
  flatten_json (JObj [("tags", JArr [JStr "a"; JStr "b"; JStr "c"])]) EmptyString "_" =
    [("tags", JStr "a, b, c")].
Proof.
  intros Hex. split; [|reflexivity].
  rewrite flatten_json_obj_app. simpl fold_left at 1. f_equal.
  unfold flatten_entry at 1. simpl.
  by rewrite (forallb_is_dict_false _ Hex).
Qed.

Lemma flatten_json_array_joined_witness :
  flatten_json
    (JObj ([("id", JInt 7)] ++
           ("m", JArr [JInt 1; JObj [("k", JNull)]; JBool true]) :: [("z", JNull)]))
    EmptyString "_" =
  [("id", JInt 7); ("m", JStr "1, {'k': None}, True"); ("z", JNull)].
Proof.
  destruct (flatten_json_array_joined EmptyString "_" "m"
              [JInt 1; JObj [("k", JNull)]; JBool true]
              [("id", JInt 7)] [("z", JNull)]) as [H _].
  - exists (JInt 1). split; [simpl; auto | reflexivity].
  - rewrite H. reflexivity.
Defined.

(** ** Top-level dispatch and the empty source *)

Section DispatchFacts.

Lemma flatten_top_obj members :
  flatten_top (JObj members) =
  Some (fold_left dispatch_step members [flatten_json (JObj members) EmptyString "_"]).
Proof. reflexivity. Qed.

(** Members that are not arrays of objects leave [flattened_data] alone. *)
Lemma dispatch_step_skip acc kv : qualifies kv = false -> dispatch_step acc kv = acc.
Proof.
  unfold qualifies, dispatch_step. destruct kv as [k v]; simpl.
  destruct v; try done. simpl. by intros ->.
Qed.

Lemma dispatch_fold_skip post acc :
  forallb (fun kv => negb (qualifies kv)) post = true ->
  fold_left dispatch_step post acc = acc.
Proof.
  revert acc. induction post as [|kv post IH]; intros acc H; [done|].
  simpl in H. apply andb_prop in H as [Hkv Hpost]. apply negb_true_iff in Hkv.
  simpl. rewrite dispatch_step_skip by done. by apply IH.
Qed.

(** The last array of objects decides the rows, whatever came before. *)
Lemma dispatch_fold_last pre key items post acc :
  forallb is_dict items = true ->
  forallb (fun kv => negb (qualifies kv)) post = true ->
  fold_left dispatch_step (pre ++ (key, JArr items) :: post) acc =
  map (fun item => flatten_json item EmptyString "_") items.
Proof.
  intros Hall Hpost. rewrite fold_left_app. simpl fold_left.
  rewrite dispatch_fold_skip by done.
  unfold dispatch_step. simpl. by rewrite Hall.
Qed.

(** An object with at least one array of objects splits at the last one. *)
Lemma last_qualifying_member members :
  existsb qualifies members = true ->
  exists pre key items post,
    members = pre ++ (key, JArr items) :: post /\
    forallb is_dict items = true /\
    forallb (fun kv => negb (qualifies kv)) post = true.
Proof.
  induction members as [|[k v] members IH]; [done|]. simpl.
  destruct (existsb qualifies members) eqn:E.
  - intros _. destruct (IH eq_refl) as (pre & key & items & post & -> & Hitems & Hpost).
    by exists ((k, v) :: pre), key, items, post.
  - rewrite orb_false_r. unfold qualifies at 1. simpl. destruct v; try done. simpl.
    intros Hitems. exists [], k, items, members. repeat split; [done|].
    clear -E. induction members as [|kv members IH]; [done|]. simpl in *.
    apply orb_false_elim in E as [-> E]. simpl. by apply IH.
Qed.

End DispatchFacts.

(** C4. For a top-level object with at least one member whose value is an
    array of objects, the rows are the elements of the array held by the last
    such member in key order, each flattened on its own: what earlier such
    members produced, and the record of the whole object, are replaced. *)
Theorem flatten_top_last_array_wins
    (pre post : list (string * json)) (key : string) (items : list json) :
  forallb is_dict items = true ->
  forallb (fun kv => negb (qualifies kv)) post = true ->
  flatten_top (JObj (pre ++ (key, JArr items) :: post)) =
  Some (map (fun item => flatten_json item EmptyString "_") items).
Proof.
  intros Hall Hpost. rewrite flatten_top_obj. f_equal.
  by apply dispatch_fold_last.
Qed.

Lemma flatten_top_last_array_wins_witness :
  flatten_top
    (JObj ([("meta", JStr "m"); ("a", JArr [JObj [("x", JInt 1)]])] ++
           ("b", JArr [JObj [("y", JInt 2)]; JObj [("y", JInt 3)]]) ::
           [("tags", JArr [JStr "t"])])) =
  Some [[("y", JInt 2)]; [("y", JInt 3)]].
Proof.
  rewrite (flatten_top_last_array_wins
             [("meta", JStr "m"); ("a", JArr [JObj [("x", JInt 1)]])]
             [("tags", JArr [JStr "t"])] "b"
             [JObj [("y", JInt 2)]; JObj [("y", JInt 3)]] eq_refl eq_refl).
  reflexivity.
Defined.

(** C10. A member whose value is the empty array adds no column: the record
    is the one obtained without that member (no empty string is stored under
    its key).  Hence a top-level object whose last array-of-objects member
    holds the empty array yields no rows. *)
Theorem flatten_json_empty_array
    (parent_key sep key : string) (pre post : list (string * json)) :
  flatten_json (JObj (pre ++ (key, JArr []) :: post)) parent_key sep =
    flatten_json (JObj (pre ++ post)) parent_key sep /\
  flatten_json (JObj [(key, JArr [])]) parent_key sep = [] /\
  (forallb (fun kv => negb (qualifies kv)) post = true ->
   flatten_top (JObj (pre ++ (key, JArr []) :: post)) = Some []).
Proof.
  split; [|split].
  - by rewrite !flatten_json_obj_app.
  - reflexivity.
  - intros Hpost. rewrite flatten_top_obj. f_equal.
    by apply (dispatch_fold_last pre key []).
Qed.

Lemma flatten_json_empty_array_witness :
  flatten_json (JObj ([("id", JInt 7)] ++ ("rows", JArr []) :: [("note", JStr "n")]))
    EmptyString "_" = [("id", JInt 7); ("note", JStr "n")] /\
  flatten_top (JObj ([("id", JInt 7)] ++ ("rows", JArr []) :: [("note", JStr "n")])) =
    Some [].
Proof.
  destruct (flatten_json_empty_array EmptyString "_" "rows"
              [("id", JInt 7)] [("note", JStr "n")]) as (H1 & _ & H2).
  split; [rewrite H1; reflexivity | exact (H2 eq_refl)].
Defined.

(** C1, as the code has it.  Whenever flattening yields no record the run
    returns the message ["Empty source file: <name>."] with status 200 and
    sends no append; this is the case for an empty top-level array and for a
    top-level object whose last array-of-objects member holds the empty
    array. *)
Theorem process_json_file_empty_source
    (astype : dtype -> Series -> option Series) (w : World) (event : Event)
    (json_data : json) :
  blob_json w = Some json_data ->
  flatten_top json_data = Some [] ->
  (process_json_file astype w event).1 =
    Some (empty_source_line (event_name event), 200%Z) /\
  existsb is_write (process_json_file astype w event).2 = false /\
  flatten_top (JArr []) = Some [] /\
  (forall pre key post,
     forallb (fun kv => negb (qualifies kv)) post = true ->
     flatten_top (JObj (pre ++ (key, JArr []) :: post)) = Some []).
Proof.
  intros Hblob Hflat. unfold process_json_file. rewrite Hblob, Hflat.
  repeat split.
  intros pre key post Hpost. rewrite flatten_top_obj. f_equal.
  by apply (dispatch_fold_last pre key []).
Qed.

Lemma process_json_file_empty_source_witness :
  (process_json_file astype_sample (sample_world (JArr [])) sample_event).1 =
    Some ("Empty source file: incoming/sales_report_2024_01_15_103000.json.", 200%Z) /\
  existsb is_write
    (process_json_file astype_sample (sample_world (JArr [])) sample_event).2 = false.
Proof.
  destruct (process_json_file_empty_source astype_sample (sample_world (JArr []))
              sample_event (JArr []) eq_refl eq_refl) as (H1 & H2 & _).
  split; [exact H1 | exact H2].
Defined.

(** C1 as stated fails for the empty top-level object: it flattens to one
    record without columns, not to an empty sequence, the run goes on, sends
    an append of one row and returns nothing. *)
Lemma empty_object_is_appended :
  flatten_top (JObj []) = Some [[]] /\
  flatten_top (JObj []) <> Some [] /\
  (process_json_file astype_sample (sample_world (JObj [])) sample_event).1 = None /\
  existsb is_write
    (process_json_file astype_sample (sample_world (JObj [])) sample_event).2 = true.
Proof. repeat split; try reflexivity. discriminate. Qed.

(** ** Table name *)

Section TableNameFacts.

Lemma str_split_not_nil x s : str_split x s <> [].
Proof.
  destruct s as [|c s]; simpl; [done|].
  destruct (Ascii.eqb c x); [done|]. by destruct (str_split x s).
Qed.

Lemma count_char_cons x c s :
  count_char x (String c s) = (if Ascii.eqb c x then 1 else 0) + count_char x s.
Proof.
  unfold count_char. simpl. rewrite filter_cons.
  destruct (Ascii.eqb_spec c x); case_decide; done.
Qed.

(** [n] separators give [n + 1] pieces. *)
Lemma str_split_length x s : length (str_split x s) = S (count_char x s).
Proof.
  induction s as [|c s IH]; [done|].
  rewrite count_char_cons. simpl.
  destruct (Ascii.eqb c x); simpl; [by rewrite IH|].
  destruct (str_split x s); simpl in *; [done|exact IH].
Qed.

(** Without a separator the one piece is the string itself. *)
Lemma str_split_single x s a : str_split x s = [a] -> a = s.
Proof.
  revert a. induction s as [|c s IH]; intros a; simpl; [by intros [= <-]|].
  destruct (Ascii.eqb c x).
  - intros [= _ H]. by destruct (str_split_not_nil x s).
  - destruct (str_split x s) as [|p ps] eqn:E; [by destruct (str_split_not_nil x s)|].
    intros [= <- ->]. by rewrite (IH p).
Qed.

(** With at most one dot, the text before the first dot is the base name
    without its extension. *)
Lemma first_piece_is_stem base :
  count_char "."%char base <= 1 ->
  List.hd EmptyString (str_split "."%char base) = strip_extension base.
Proof.
  intros Hdots. unfold strip_extension.
  pose proof (str_split_length "."%char base) as Hlen.
  destruct (str_split "."%char base) as [|a [|b [|c l]]] eqn:E; simpl in *.
  - done.
  - by apply str_split_single in E.
  - done.
  - lia.
Qed.

End TableNameFacts.

(** C9, as the code has it.  The short name of the table is a function of the
    object path: for a base filename with at most one dot it is the base
    filename without its extension, split on [_], without its last two
    segments, joined again with [_]; ["sales_report_2024_01_15_103000.json"]
    gives ["sales_report_2024_01"]. *)
Theorem table_name_of_spec (file_name : string) :
  count_char "."%char (basename file_name) <= 1 ->
  table_name_of file_name = table_short_name_spec file_name /\
  table_name_of "sales_report_2024_01_15_103000.json" = "sales_report_2024_01".
Proof.
  intros Hdots. split; [|reflexivity].
  unfold table_name_of, table_short_name_spec.
  by rewrite first_piece_is_stem.
Qed.

Lemma table_name_of_spec_witness :
  table_name_of "incoming/orders_eu_20240115_103000.json" = "orders_eu".
Proof.
  destruct (table_name_of_spec "incoming/orders_eu_20240115_103000.json") as [H _].
  - vm_compute. lia.
  - rewrite H. reflexivity.
Defined.

(** C9 as stated fails on its own example: dropping the last two segments of
    [sales_report_2024_01_15_103000] removes [15] and [103000]. *)
Lemma table_name_of_example_differs :
  table_name_of "sales_report_2024_01_15_103000.json" <> "sales_report_2024_01_15".
Proof. discriminate. Qed.

(** With a second dot in the base filename the code cuts at the first dot,
    which is more than the extension. *)
Lemma table_name_of_two_dots :
  table_name_of "v1.2_report_2024_01_15_103000.json" = EmptyString /\
  table_short_name_spec "v1.2_report_2024_01_15_103000.json" = "v1.2_report_2024_01".
Proof. split; reflexivity. Qed.

(** ** Column reconciler *)

Section FrameFacts.

Implicit Types (d : list (string * Series)) (df : DataFrame) (c : string).

Lemma filter_label_absent d c :
  c ∉ map fst d -> filter (fun kv : string * Series => kv.1 = c) d = [].
Proof.
  induction d as [|[k s] d IH]; [done|]. simpl. intros H.
  apply not_elem_of_cons in H as [Hk Hd].
  rewrite filter_cons_False by (simpl; congruence). by apply IH.
Qed.

(** With pairwise distinct labels, selecting a column by label is a look-up
    in the association list. *)
Lemma frame_get_dict_get df c :
  NoDup (columns df) -> frame_get df c = dict_get (data df) c.
Proof.
  unfold frame_get, columns. induction (data df) as [|[k s] d IH]; [done|].
  simpl. intros Hnd. apply NoDup_cons in Hnd as [Hk Hd].
  destruct (String.eqb_spec k c) as [->|Hne].
  - rewrite filter_cons_True by done. by rewrite filter_label_absent.
  - rewrite filter_cons_False by done. by apply IH.
Qed.

Lemma dict_get_is_Some {V} (d : dict V) c : c ∈ map fst d -> is_Some (dict_get d c).
Proof.
  induction d as [|[k s] d IH]; simpl; [by intros ?%elem_of_nil|].
  intros H. destruct (String.eqb_spec k c); [by eexists|].
  apply elem_of_cons in H as [?|?]; [congruence|by apply IH].
Qed.

Lemma dict_get_elem_of {V} (d : dict V) c s : dict_get d c = Some s -> c ∈ map fst d.
Proof.
  induction d as [|[k s'] d IH]; simpl; [done|].
  destruct (String.eqb_spec k c) as [->|Hne]; [by left|]. right. by apply IH.
Qed.

Lemma existsb_label df c : c ∈ columns df -> existsb (String.eqb c) (columns df) = true.
Proof.
  intros Hin. apply existsb_exists. exists c.
  split; [by apply list_elem_of_In|apply String.eqb_refl].
Qed.

Lemma columns_frame_set df c s : c ∈ columns df -> columns (frame_set df c s) = columns df.
Proof.
  intros Hin. unfold frame_set. rewrite (existsb_label df c Hin).
  unfold columns. simpl. rewrite map_map. apply map_ext. intros [k s']. simpl.
  by destruct (String.eqb k c).
Qed.

Lemma dict_get_frame_set df c s c' :
  c ∈ columns df ->
  dict_get (data (frame_set df c s)) c' =
  if String.eqb c c' then Some s else dict_get (data df) c'.
Proof.
  intros Hin. unfold frame_set. rewrite (existsb_label df c Hin). simpl.
  unfold columns in Hin. induction (data df) as [|[k s'] d IH]; [by apply elem_of_nil in Hin|].
  simpl in *. destruct (String.eqb_spec k c) as [->|Hkc]; simpl.
  - destruct (String.eqb_spec c c'); [done|].
    destruct (decide (c ∈ map fst d)) as [Hd|Hd]; [by rewrite IH|].
    clear IH Hin. induction d as [|[k2 s2] d IH2]; [done|]. simpl in *.
    apply not_elem_of_cons in Hd as [Hc Hd].
    destruct (String.eqb_spec k2 c); [congruence|]. simpl. by rewrite IH2.
  - apply elem_of_cons in Hin as [?|Hin]; [congruence|].
    destruct (String.eqb_spec k c') as [->|Hkc'].
    + by destruct (String.eqb_spec c c'); [congruence|].
    + by apply IH.
Qed.

(** Dropping columns by label does not touch the columns that stay. *)
Lemma dict_get_filter_label (p : string -> bool) d c :
  dict_get (filter (fun kv : string * Series => p kv.1) d) c =
  if p c then dict_get d c else None.
Proof.
  induction d as [|[k s] d IH]; simpl; [by destruct (p c)|].
  destruct (String.eqb_spec k c) as [->|Hne].
  - destruct (p c) eqn:Hp.
    + rewrite filter_cons_True by (simpl; by rewrite Hp). simpl. by rewrite String.eqb_refl.
    + rewrite filter_cons_False by (simpl; rewrite Hp; intros []). rewrite IH. by rewrite ?Hp.
  - destruct (p k) eqn:Hk.
    + rewrite filter_cons_True by (simpl; by rewrite Hk). simpl.
      destruct (String.eqb_spec k c); [congruence|]. exact IH.
    + rewrite filter_cons_False by (simpl; rewrite Hk; intros []). exact IH.
Qed.

(** [combine_first] row by row. *)
Lemma combine_first_lookup (a b : Series) i :
  combine_first a b !! i =
  match a !! i with
  | Some x => Some (match b !! i with Some y => if isna x then y else x | None => x end)
  | None => None
  end.
Proof.
  revert b i. induction a as [|x a IH]; intros b i; [by destruct b|].
  destruct b as [|y b]; simpl.
  - by destruct (_ !! i).
  - destruct i as [|i]; simpl; [done|]. apply IH.
Qed.

Lemma fold_combine_first_lookup (ss : list Series) (s : Series) i x :
  s !! i = Some x ->
  fold_left combine_first ss s !! i = Some (coalesce x (omap (fun t : Series => t !! i) ss)).
Proof.
  revert s x. induction ss as [|t ss IH]; intros s x Hs; [done|].
  simpl. destruct (t !! i) as [y|] eqn:Ht; simpl.
  - apply IH. by rewrite combine_first_lookup, Hs, Ht.
  - apply IH. by rewrite combine_first_lookup, Hs, Ht.
Qed.

Lemma coalesce_notna x ys : isna x = false -> coalesce x ys = x.
Proof.
  unfold coalesce. induction ys as [|y ys IH]; [done|]. simpl.
  intros H. rewrite H. by apply IH.
Qed.

End FrameFacts.

Section ReconcilerFacts.

Implicit Types (df : DataFrame) (lc : gmap string string) (c e col : string).

(** A column whose lower-case form is already recorded changes no canonical
    label; a new one becomes the canonical label of its lower-case form. *)
Lemma canon_step_seen lc col rest e c :
  lc !! str_lower col = Some e -> canon lc (col :: rest) c = canon lc rest c.
Proof.
  intros Hlc. unfold canon. destruct (lc !! str_lower c) eqn:E; [done|].
  unfold canonical_of. rewrite filter_cons_False; [done|].
  intros Heq. rewrite Heq in Hlc. congruence.
Qed.

Lemma canon_step_new lc col rest c :
  lc !! str_lower col = None ->
  canon (<[str_lower col := col]> lc) rest c = canon lc (col :: rest) c.
Proof.
  intros Hlc. unfold canon.
  destruct (decide (str_lower col = str_lower c)) as [Heq|Hne].
  - rewrite <- Heq, lookup_insert_eq, Hlc. unfold canonical_of.
    by rewrite filter_cons_True.
  - rewrite lookup_insert_ne by done. destruct (lc !! str_lower c); [done|].
    unfold canonical_of. by rewrite filter_cons_False.
Qed.

Lemma omap_ext_in {A B} (f g : A -> option B) (l : list A) :
  (forall x, x ∈ l -> f x = g x) -> omap f l = omap g l.
Proof.
  induction l as [|x l IH]; intros H; [done|]. csimpl.
  rewrite (H x) by left.
  rewrite IH; [done|]. intros y Hy. apply H. by right.
Qed.

(** The loop, from any state it can be in: it ends without an exception, the
    columns to drop are the remaining labels that are not canonical, and every
    column has received, in order, the remaining columns it is canonical
    for. *)
Lemma merge_loop_spec cols : forall df lc drops,
  NoDup (columns df) -> NoDup cols ->
  (forall c, c ∈ cols -> c ∈ columns df) ->
  (forall l e, lc !! l = Some e -> str_lower e = l /\ e ∈ columns df /\ e ∉ cols) ->
  exists df',
    merge_loop cols df lc drops =
      Some (df', drops ++ filter (fun c => canon lc cols c <> Some c) cols) /\
    columns df' = columns df /\ nrows df' = nrows df /\
    forall e s, dict_get (data df) e = Some s ->
      dict_get (data df') e =
      Some (fold_left combine_first
              (omap (fun d => dict_get (data df) d)
                 (filter (fun d => canon lc cols d = Some e /\ d <> e) cols)) s).
Proof.
  induction cols as [|col rest IH]; intros df lc drops Hnd Hcols Hsub Hlc.
  { exists df. simpl. by rewrite app_nil_r. }
  apply NoDup_cons in Hcols as [Hcol_rest Hrest].
  assert (Hcol_in : col ∈ columns df) by (apply Hsub; left).
  simpl merge_loop. destruct (lc !! str_lower col) as [e0|] eqn:E.
  - destruct (Hlc _ _ E) as (Hle & He_in & He_out).
    apply not_elem_of_cons in He_out as [He_col He_rest].
    rewrite !frame_get_dict_get by done.
    destruct (dict_get_is_Some (data df) e0 He_in) as [a Ha].
    destruct (dict_get_is_Some (data df) col Hcol_in) as [b Hb].
    rewrite Ha, Hb. simpl.
    destruct (IH (frame_set df e0 (combine_first a b)) lc (drops ++ [col]))
      as (df' & Hrun & Hlabels & Hrows & Hdata).
    { by rewrite columns_frame_set. }
    { done. }
    { intros c Hc. rewrite columns_frame_set by done. apply Hsub. by right. }
    { intros l e Hl. destruct (Hlc _ _ Hl) as (? & ? & Hout).
      apply not_elem_of_cons in Hout as [_ ?]. by rewrite columns_frame_set. }
    exists df'. rewrite columns_frame_set in Hlabels by done.
    split; [|split; [done|split; [done|]]].
    + rewrite Hrun. f_equal. f_equal. rewrite <- app_assoc. f_equal.
      rewrite filter_cons_True.
      2:{ rewrite (canon_step_seen _ _ _ _ _ E). unfold canon. rewrite E. congruence. }
      simpl. f_equal. apply list_filter_iff. intros c.
      by rewrite (canon_step_seen _ _ _ _ _ E).
    + intros e s Hs.
      rewrite (Hdata e (if String.eqb e0 e then combine_first a b else s)).
      2:{ rewrite dict_get_frame_set by done. by destruct (String.eqb e0 e). }
      f_equal.
      assert (Hfilter :
        filter (fun d => canon lc (col :: rest) d = Some e /\ d <> e) rest =
        filter (fun d => canon lc rest d = Some e /\ d <> e) rest).
      { apply list_filter_iff. intros c. by rewrite (canon_step_seen _ _ _ _ _ E). }
      assert (Homap : forall l : list string, (forall d, d ∈ l -> d ∈ rest) ->
        omap (fun d => dict_get (data (frame_set df e0 (combine_first a b))) d) l =
        omap (fun d => dict_get (data df) d) l).
      { intros l Hl. apply omap_ext_in. intros d Hd.
        rewrite dict_get_frame_set by done.
        destruct (String.eqb_spec e0 d) as [->|]; [|done].
        destruct He_rest. by apply Hl. }
      rewrite Homap by (intros d Hd; by apply list_elem_of_filter in Hd as [_ ?]).
      destruct (String.eqb_spec e0 e) as [->|Hne].
      * rewrite filter_cons_True.
        2:{ split; [|done]. unfold canon. by rewrite E. }
        simpl. rewrite Hb. simpl. rewrite Hfilter.
        by replace s with a by congruence.
      * rewrite filter_cons_False.
        2:{ intros [Hc _]. unfold canon in Hc. rewrite E in Hc. congruence. }
        by rewrite Hfilter.
  - destruct (IH df (<[str_lower col := col]> lc) drops)
      as (df' & Hrun & Hlabels & Hrows & Hdata); [done|done|..].
    { intros c Hc. apply Hsub. by right. }
    { intros l e Hl. apply lookup_insert_Some in Hl as [[<- <-]|[Hne Hl]]; [done|].
      destruct (Hlc _ _ Hl) as (? & ? & Hout).
      by apply not_elem_of_cons in Hout as [_ ?]. }
    exists df'. split; [|split; [done|split; [done|]]].
    + rewrite Hrun. f_equal. f_equal. f_equal.
      rewrite filter_cons_False.
      2:{ intros Hc. apply Hc. unfold canon. rewrite E. unfold canonical_of.
          by rewrite filter_cons_True. }
      apply list_filter_iff. intros c. by rewrite canon_step_new.
    + intros e s Hs. rewrite (Hdata e s Hs). f_equal. f_equal. f_equal.
      rewrite filter_cons_False.
      2:{ intros [Hc Hne]. unfold canon in Hc. rewrite E in Hc. unfold canonical_of in Hc.
          rewrite filter_cons_True in Hc by done. simpl in Hc. congruence. }
      apply list_filter_iff. intros c. by rewrite canon_step_new.
Qed.

End ReconcilerFacts.

Section ReconcilerResult.

Implicit Types (df : DataFrame) (d : list (string * Series)) (c : string).

Lemma filter_iff_elem {A} (P Q : A -> Prop) `{!forall x, Decision (P x)}
    `{!forall x, Decision (Q x)} (l : list A) :
  (forall x, x ∈ l -> P x <-> Q x) -> filter P l = filter Q l.
Proof.
  induction l as [|x l IH]; intros Hall; [done|].
  assert (Hx : P x <-> Q x) by (apply Hall; left).
  assert (Hl : filter P l = filter Q l) by (apply IH; intros y Hy; apply Hall; by right).
  destruct (decide (P x)).
  - rewrite !filter_cons_True by tauto. by rewrite Hl.
  - rewrite !filter_cons_False by tauto. exact Hl.
Qed.

Lemma map_fst_filter_label (P : string -> Prop) `{!forall x, Decision (P x)} d :
  map fst (filter (fun kv : string * Series => P kv.1) d) = filter P (map fst d).
Proof.
  induction d as [|[k s] d IH]; [done|]. simpl.
  destruct (decide (P k)).
  - rewrite !filter_cons_True by done. simpl. by rewrite IH.
  - by rewrite !filter_cons_False.
Qed.

(** Looking up the selected labels gives the selected columns. *)
Lemma omap_dict_get_filter (P : string -> Prop) `{!forall x, Decision (P x)} d :
  NoDup (map fst d) ->
  omap (fun c => dict_get d c) (filter P (map fst d)) =
  map snd (filter (fun kv : string * Series => P kv.1) d).
Proof.
  induction d as [|[k s] d IH]; [done|]. simpl. intros Hnd.
  apply NoDup_cons in Hnd as [Hk Hd].
  assert (Htail : forall l : list string, (forall x, x ∈ l -> x ∈ map fst d) ->
            omap (fun c => dict_get ((k, s) :: d) c) l = omap (fun c => dict_get d c) l).
  { intros l Hl. apply omap_ext_in. intros x Hx. simpl.
    destruct (String.eqb_spec k x) as [->|]; [|done]. destruct Hk. by apply Hl. }
  destruct (decide (P k)).
  - rewrite !filter_cons_True by done. csimpl. rewrite String.eqb_refl. simpl.
    rewrite Htail by (intros x Hx; by apply list_elem_of_filter in Hx as [_ ?]).
    by rewrite IH.
  - rewrite !filter_cons_False by done.
    rewrite Htail by (intros x Hx; by apply list_elem_of_filter in Hx as [_ ?]).
    by apply IH.
Qed.

Lemma canonical_of_same_lower labels c1 c2 :
  str_lower c1 = str_lower c2 -> canonical_of labels c1 = canonical_of labels c2.
Proof. unfold canonical_of. by intros ->. Qed.

Lemma canonical_of_lower labels c e : canonical_of labels c = Some e -> str_lower e = str_lower c.
Proof.
  unfold canonical_of. intros H. apply head_Some_elem_of in H.
  by apply list_elem_of_filter in H as [? _].
Qed.

Lemma existsb_eqb_elem (c : string) (l : list string) :
  existsb (String.eqb c) l = true <-> c ∈ l.
Proof.
  rewrite existsb_exists. split.
  - intros (x & Hx & Heq). apply String.eqb_eq in Heq as ->. by apply list_elem_of_In.
  - intros H. exists c. split; [by apply list_elem_of_In|apply String.eqb_refl].
Qed.

End ReconcilerResult.

Section RecordFrames.

Lemma union_keys_NoDup keys : forall seen, NoDup seen -> NoDup (union_keys seen keys).
Proof.
  induction keys as [|k keys IH]; intros seen Hseen; [done|]. simpl. apply IH.
  destruct (existsb (String.eqb k) seen) eqn:E; [done|].
  apply NoDup_app. split; [done|]. split; [|apply NoDup_singleton].
  intros x Hx ->%list_elem_of_singleton.
  apply existsb_eqb_elem in Hx. congruence.
Qed.

(** A frame built from records has pairwise distinct labels: the keys of a
    dictionary are distinct and a key shared by several records gives one
    column. *)
Lemma frame_of_records_NoDup (records : list FlatRecord) :
  NoDup (columns (frame_of_records records)).
Proof.
  unfold columns, frame_of_records. simpl. rewrite map_map. simpl. rewrite map_id.
  generalize (NoDup_nil_2 (A := string)). generalize (@nil string).
  induction records as [|r records IH]; intros seen Hseen; [done|].
  simpl. apply IH. by apply union_keys_NoDup.
Qed.

End RecordFrames.

(** C3. On a frame with pairwise distinct labels the reconciler ends
    normally and
    - keeps exactly the columns that are the first with their lower-case
      form, in their original order;
    - leaves no two columns whose labels agree up to letter case;
    - gives each kept column [c] the columns that differ from [c] by case
      only, merged in with [combine_first] in column order: in every row the
      value is the first non-null one among the value of [c] and those of the
      duplicates, so a non-null value of [c] stays. *)
Theorem handle_case_insensitive_duplicates_merges (df : DataFrame) :
  NoDup (columns df) ->
  exists out,
    handle_case_insensitive_duplicates df = Some out /\
    nrows out = nrows df /\
    columns out = filter (fun c => canonical_of (columns df) c = Some c) (columns df) /\
    (forall c1 c2, c1 ∈ columns out -> c2 ∈ columns out ->
       str_lower c1 = str_lower c2 -> c1 = c2) /\
    (forall c, c ∈ columns out ->
       exists s t,
         frame_get df c = Some s /\ frame_get out c = Some t /\
         t = fold_left combine_first (case_duplicates df c) s /\
         forall i x, s !! i = Some x ->
           t !! i = Some (coalesce x (omap (fun u : Series => u !! i) (case_duplicates df c))) /\
           (isna x = false -> t !! i = Some x)).
Proof.
  intros Hnd.
  destruct (merge_loop_spec (columns df) df ∅ [] Hnd Hnd) as (df' & Hrun & Hlabels & Hrows & Hdata).
  { done. }
  { intros l e H. by rewrite lookup_empty in H. }
  simpl in Hrun.
  set (L := columns df) in *.
  set (drops := filter (fun c => canon ∅ L c <> Some c) L) in *.
  assert (Hcanon : forall c, canon ∅ L c = canonical_of L c).
  { intros c. unfold canon. by rewrite lookup_empty. }
  assert (Hkeep : forall c, c ∈ L ->
            negb (existsb (String.eqb c) drops) <-> canonical_of L c = Some c).
  { intros c Hc. rewrite negb_True, Is_true_true, existsb_eqb_elem.
    unfold drops. rewrite list_elem_of_filter, Hcanon.
    destruct (decide (canonical_of L c = Some c)); tauto. }
  assert (Hout_cols : columns (frame_drop df' drops) =
                      filter (fun c => canonical_of L c = Some c) L).
  { unfold columns at 1, frame_drop. cbn [data].
    etrans; [exact (map_fst_filter_label
                      (fun k => negb (existsb (String.eqb k) drops)) (data df'))|].
    fold (columns df'). rewrite Hlabels. by apply filter_iff_elem. }
  exists (frame_drop df' drops).
  split; [|split; [|split; [|split]]].
  - unfold handle_case_insensitive_duplicates. fold L. by rewrite Hrun.
  - exact Hrows.
  - exact Hout_cols.
  - intros c1 c2. rewrite !Hout_cols, !list_elem_of_filter.
    intros [H1 _] [H2 _] Hlow.
    rewrite (canonical_of_same_lower L c1 c2 Hlow) in H1. congruence.
  - intros c Hc.
    assert (Hnd_out : NoDup (columns (frame_drop df' drops))).
    { rewrite Hout_cols. by apply NoDup_filter. }
    rewrite Hout_cols in Hc. apply list_elem_of_filter in Hc as [Hcan HcL].
    destruct (dict_get_is_Some (data df) c HcL) as [s Hs].
    exists s, (fold_left combine_first (case_duplicates df c) s).
    split; [by rewrite frame_get_dict_get|].
    split; [|split; [done|]].
    + rewrite frame_get_dict_get by done. unfold frame_drop. cbn [data].
      etrans; [exact (dict_get_filter_label
                        (fun k => negb (existsb (String.eqb k) drops)) (data df') c)|].
      destruct (negb (existsb (String.eqb c) drops)) eqn:Hk.
      2:{ apply Hkeep in Hcan; [|done]. by rewrite Hk in Hcan. }
      rewrite (Hdata c s Hs). f_equal. f_equal. unfold case_duplicates.
      etrans; [|exact (omap_dict_get_filter
                         (fun k => str_lower k = str_lower c /\ k <> c) (data df) Hnd)].
      f_equal. apply list_filter_iff. intros x. rewrite Hcanon. split.
      * intros [Hx Hne]. split; [|done]. by apply canonical_of_lower in Hx.
      * intros [Hx Hne]. split; [|done]. by rewrite (canonical_of_same_lower L x c Hx).
    + intros i x Hx.
      pose proof (fold_combine_first_lookup (case_duplicates df c) s i x Hx) as Hrow.
      split; [exact Hrow|]. intros Hna. by rewrite Hrow, coalesce_notna.
Qed.

Lemma handle_case_insensitive_duplicates_merges_witness :
  NoDup (columns sample_frame) /\
  exists out,
    handle_case_insensitive_duplicates sample_frame = Some out /\
    columns out = ["Name"; "age"] /\
    frame_get out "Name" = Some [Val (JStr "ann"); Val (JStr "bob")].
Proof.
  assert (Hnd : NoDup (columns sample_frame)) by compute_done.
  split; [exact Hnd|].
  destruct (handle_case_insensitive_duplicates_merges sample_frame Hnd)
    as (out & Hrun & _ & Hcols & _ & Hval).
  exists out. split; [exact Hrun|]. split; [rewrite Hcols; reflexivity|].
  destruct (Hval "Name") as (s & t & Hs & Ht & Heq & _).
  - rewrite Hcols. vm_compute. left.
  - rewrite Ht, Heq. vm_compute in Hs. injection Hs as <-. reflexivity.
Defined.

(** ** Schema enforcer *)

Section EnforcerFacts.

Variable astype : dtype -> Series -> option Series.

Implicit Types (df : DataFrame) (S : dict string) (c col : string).

Lemma cast_of_Some S c t :
  cast_of S c = Some t ->
  exists bq pt, dict_get S c = Some bq /\ type_mapping bq = Some pt /\ cast_target pt = t.
Proof.
  unfold cast_of. destruct (dict_get S c) as [bq|]; [|done].
  destruct (type_mapping bq) as [pt|] eqn:E; [|done]. simpl. intros [= <-]. by exists bq, pt.
Qed.

(** The loop up to the first cast that raises: the columns before it have
    been cast where the schema asks for it, every other column is as it was,
    and the exception leaves the loop. *)
Lemma enforce_loop_raises S col post t s : forall pre df out,
  NoDup (columns df) -> NoDup (pre ++ col :: post) ->
  (forall c, c ∈ pre ++ col :: post -> c ∈ columns df) ->
  (forall c t' s', c ∈ pre -> cast_of S c = Some t' -> dict_get (data df) c = Some s' ->
     is_Some (astype t' s')) ->
  cast_of S col = Some t -> dict_get (data df) col = Some s -> astype t s = None ->
  exists df' out',
    enforce_loop astype S (pre ++ col :: post) df out = (df', out', true) /\
    columns df' = columns df /\ nrows df' = nrows df /\
    (forall c, c ∉ pre -> dict_get (data df') c = dict_get (data df) c) /\
    (forall c, c ∈ pre -> cast_of S c = None ->
       dict_get (data df') c = dict_get (data df) c) /\
    (forall c t' s', c ∈ pre -> cast_of S c = Some t' -> dict_get (data df) c = Some s' ->
       dict_get (data df') c = astype t' s').
Proof.
  intros pre. induction pre as [|c0 pre IH]; intros df out Hnd Hcols Hsub Hpre Hcast Hs Hfail.
  - destruct (cast_of_Some _ _ _ Hcast) as (bq & pt & Hbq & Hpt & Ht).
    exists df, out. simpl. rewrite Hbq, Hpt, Ht, frame_get_dict_get, Hs by done. simpl.
    rewrite Hfail. repeat split; try done.
    intros c t' s' Hc. by apply elem_of_nil in Hc.
  - simpl in Hcols. apply NoDup_cons in Hcols as [Hc0 Hcols].
    assert (Hc0_in : c0 ∈ columns df) by (apply Hsub; left).
    assert (Hsub' : forall c, c ∈ pre ++ col :: post -> c ∈ columns df)
      by (intros c Hc; apply Hsub; by right).
    assert (Hc0_col : c0 <> col).
    { intros ->. apply Hc0, elem_of_app. right. left. }
    assert (Hc0_pre : c0 ∉ pre).
    { intros ?. apply Hc0, elem_of_app. by left. }
    simpl enforce_loop. destruct (cast_of S c0) as [t0|] eqn:Hcast0.
    + destruct (cast_of_Some _ _ _ Hcast0) as (bq & pt & Hbq & Hpt & Ht).
      destruct (dict_get_is_Some (data df) c0 Hc0_in) as [s0 Hs0].
      destruct (Hpre c0 t0 s0) as [s1 Hs1]; [by left|done|done|].
      rewrite Hbq, Hpt, Ht, frame_get_dict_get, Hs0 by done. simpl. rewrite Hs1.
      assert (Hother : forall c, c <> c0 ->
                dict_get (data (frame_set df c0 s1)) c = dict_get (data df) c).
      { intros c Hc. rewrite dict_get_frame_set by done.
        by destruct (String.eqb_spec c0 c); [congruence|]. }
      destruct (IH (frame_set df c0 s1) out)
        as (df' & out' & Hrun & Hlabels & Hrows & Hrest & Hnone & Hsome).
      { by rewrite columns_frame_set. }
      { done. }
      { intros c Hc. rewrite columns_frame_set by done. by apply Hsub'. }
      { intros c t' s' Hc Hct. rewrite Hother by (intros ->; done).
        apply (Hpre c); [by right|done]. }
      { done. }
      { by rewrite Hother. }
      { done. }
      rewrite columns_frame_set in Hlabels by done.
      exists df', out'. split; [done|]. split; [done|]. split; [done|].
      split; [|split].
      * intros c Hc. apply not_elem_of_cons in Hc as [Hne Hc].
        rewrite Hrest by done. by apply Hother.
      * intros c Hc Hct. apply elem_of_cons in Hc as [->|Hc]; [congruence|].
        rewrite Hnone by done. apply Hother. by intros ->.
      * intros c t' s' Hc Hct Hcs. apply elem_of_cons in Hc as [->|Hc].
        -- rewrite Hrest by done. rewrite dict_get_frame_set by done.
           rewrite String.eqb_refl. congruence.
        -- apply Hsome; [done|done|]. rewrite Hother by (intros ->; done). done.
    + assert (Hskip : exists out0,
                enforce_loop astype S (c0 :: pre ++ col :: post) df out =
                enforce_loop astype S (pre ++ col :: post) df out0).
      { simpl. unfold cast_of in Hcast0. destruct (dict_get S c0) as [bq|]; [|by eexists].
        destruct (type_mapping bq); [done|by eexists]. }
      destruct Hskip as [out0 Hskip]. simpl in Hskip. rewrite Hskip.
      destruct (IH df out0)
        as (df' & out' & Hrun & Hlabels & Hrows & Hrest & Hnone & Hsome); try done.
      { intros c t' s' Hc. apply Hpre. by right. }
      exists df', out'. split; [done|]. split; [done|]. split; [done|].
      split; [|split].
      * intros c Hc. apply not_elem_of_cons in Hc as [_ Hc]. by apply Hrest.
      * intros c Hc Hct. apply elem_of_cons in Hc as [->|Hc]; [by apply Hrest|].
        by apply Hnone.
      * intros c t' s' Hc Hct Hcs. apply elem_of_cons in Hc as [->|Hc]; [congruence|].
        by apply Hsome.
Qed.

End EnforcerFacts.

(** C2, as the code has it.  With an existing table, when the cast of a
    column raises, the exception is caught and logged and the frame is
    returned: the columns before it are cast as the schema asks, the failing
    column and all columns after it are as they were. *)
Theorem schema_enforcement_first_failure
    (astype : dtype -> Series -> option Series) (schema : list (string * string))
    (df : DataFrame) (pre post : list string) (col : string) (t : dtype) (s : Series) :
  NoDup (columns df) ->
  columns df = pre ++ col :: post ->
  (forall c t' s', c ∈ pre -> cast_of (schema_dict schema) c = Some t' ->
     frame_get df c = Some s' -> is_Some (astype t' s')) ->
  cast_of (schema_dict schema) col = Some t ->
  frame_get df col = Some s ->
  astype t s = None ->
  exists df' out,
    schema_enforcement astype (TableFound schema) df = Some (df', out) /\
    last out = Some (PrintError "Error upgrading datatype : ") /\
    columns df' = columns df /\ nrows df' = nrows df /\
    (forall c, c ∈ col :: post -> frame_get df' c = frame_get df c) /\
    (forall c t' s', c ∈ pre -> cast_of (schema_dict schema) c = Some t' ->
       frame_get df c = Some s' -> frame_get df' c = astype t' s') /\
    (forall c, c ∈ pre -> cast_of (schema_dict schema) c = None ->
       frame_get df' c = frame_get df c).
Proof.
  intros Hnd Hcols Hpre Hcast Hs Hfail.
  assert (Hnd' : NoDup (pre ++ col :: post)) by by rewrite <- Hcols.
  rewrite frame_get_dict_get in Hs by done.
  destruct (enforce_loop_raises astype (schema_dict schema) col post t s pre df
              [Print "Table already exist. Handling schema type mismatch."])
    as (df' & out' & Hrun & Hlabels & Hrows & Hrest & Hnone & Hsome); try done.
  { intros c. by rewrite Hcols. }
  { intros c t' s' Hc Hct Hcs. apply (Hpre c); [done|done|]. by rewrite frame_get_dict_get. }
  assert (Hnd_out : NoDup (columns df')) by by rewrite Hlabels.
  exists df', (out' ++ [PrintError "Error upgrading datatype : "]).
  split; [|split; [apply last_snoc|split; [done|split; [done|split; [|split]]]]].
  - unfold schema_enforcement. rewrite <- Hcols in Hrun. by rewrite Hrun.
  - intros c Hc. rewrite !frame_get_dict_get by done. apply Hrest.
    intros Hin. apply NoDup_app in Hnd' as (_ & Hdisj & _). by apply (Hdisj c).
  - intros c t' s' Hc Hct Hcs. rewrite frame_get_dict_get in Hcs |- * by done.
    by apply Hsome.
  - intros c Hc Hct. rewrite !frame_get_dict_get by done. by apply Hnone.
Qed.

Lemma schema_enforcement_first_failure_witness :
  exists df' out,
    schema_enforcement astype_sample (TableFound sample_schema) sample_batch =
      Some (df', out) /\
    last out = Some (PrintError "Error upgrading datatype : ") /\
    frame_get df' "code" = Some [Val (JStr "5")] /\
    frame_get df' "age" = Some [Val (JStr "thirty")] /\
    frame_get df' "zip" = Some [Val (JInt 1)].
Proof.
  destruct (schema_enforcement_first_failure astype_sample sample_schema sample_batch
              ["code"] ["zip"] "age" DInt64 [Val (JStr "thirty")])
    as (df' & out & Hrun & Hlog & _ & _ & Hrest & Hsome & _).
  - by compute_done.
  - reflexivity.
  - intros c t' s' Hc. apply list_elem_of_singleton in Hc as ->.
    intros [= <-] [= <-]. by eexists.
  - reflexivity.
  - reflexivity.
  - reflexivity.
  - exists df', out. split; [exact Hrun|]. split; [exact Hlog|].
    split; [|split].
    + rewrite (Hsome "code" Dstr [Val (JInt 5)]); [reflexivity|by left|reflexivity|reflexivity].
    + rewrite Hrest by left. reflexivity.
    + rewrite Hrest by (right; left). reflexivity.
Defined.

(** C2 as stated fails: the [try] encloses the whole loop, so after the cast
    of [age] has raised, [zip] is never visited, although the schema declares
    it and its cast would succeed. *)
Lemma later_column_is_not_coerced :
  exists df' out,
    schema_enforcement astype_sample (TableFound sample_schema) sample_batch =
      Some (df', out) /\
    frame_get df' "zip" = Some [Val (JInt 1)] /\
    cast_of (schema_dict sample_schema) "zip" = Some Dstr /\
    astype_sample Dstr [Val (JInt 1)] = Some [Val (JStr "1")].
Proof. eexists _, _. split; [reflexivity|]. repeat split. Qed.

(** * Further properties of the code *)

(** ** Name sanitizer: fixed points, letters and digits, empty names *)

Section SanitizerMore.

Lemma is_alnum_word c : is_alnum c = true -> is_word_char c = true.
Proof. unfold is_alnum, is_word_char. by intros ->. Qed.

Lemma word_not_alnum c :
  is_word_char c = true -> is_alnum c = false -> c = underscore.
Proof.
  unfold is_word_char, is_alnum. intros Hw Ha. rewrite Ha in Hw. simpl in Hw.
  by apply Ascii.eqb_eq.
Qed.

Lemma underscore_not_alnum : is_alnum underscore = false.
Proof. reflexivity. Qed.

Lemma alnum_only_app s t : alnum_only (s +:+ t) = alnum_only s +:+ alnum_only t.
Proof.
  induction s as [|c s IH]; [done|]. simpl. destruct (is_alnum c); simpl; by rewrite IH.
Qed.

Lemma alnum_only_re_sub_nonword s : alnum_only (re_sub_nonword s) = alnum_only s.
Proof.
  induction s as [|c s IH]; [done|]. simpl.
  destruct (is_word_char c) eqn:Hw; [by rewrite IH|].
  rewrite underscore_not_alnum, IH.
  destruct (is_alnum c) eqn:Ha; [|done].
  apply is_alnum_word in Ha. congruence.
Qed.

Lemma alnum_only_re_sub_underscores s :
  alnum_only (re_sub_underscores s) = alnum_only s.
Proof.
  induction s as [|a s IH]; [done|]. destruct s as [|b s]; [done|].
  rewrite re_sub_underscores_cons.
  destruct (Ascii.eqb a underscore && Ascii.eqb b underscore) eqn:E.
  - apply andb_prop in E as [->%Ascii.eqb_eq _]. rewrite IH.
    change (alnum_only (String underscore (String b s))) with (alnum_only (String b s)).
    done.
  - change (alnum_only (String a ?t)) with
      (if is_alnum a then String a (alnum_only t) else alnum_only t).
    by rewrite IH.
Qed.

Lemma alnum_only_lstrip s : alnum_only (lstrip underscore s) = alnum_only s.
Proof.
  induction s as [|c s IH]; [done|]. simpl.
  destruct (Ascii.eqb_spec c underscore) as [->|]; [|done].
  by rewrite underscore_not_alnum.
Qed.

Lemma alnum_only_rstrip s : alnum_only (rstrip underscore s) = alnum_only s.
Proof.
  induction s as [|c s IH]; [done|]. simpl.
  destruct (rstrip underscore s) as [|b t] eqn:E.
  - destruct (Ascii.eqb_spec c underscore) as [->|].
    + by rewrite underscore_not_alnum, <- IH.
    + simpl. by rewrite <- IH.
  - change (alnum_only (String c (String b t))) with
      (if is_alnum c then String c (alnum_only (String b t)) else alnum_only (String b t)).
    by rewrite IH.
Qed.

(** Steps 3 to 5 neither add, remove nor reorder a letter or digit. *)
Lemma alnum_only_sanitize_steps s :
  alnum_only (str_strip underscore (re_sub_underscores (re_sub_nonword s))) = alnum_only s.
Proof.
  unfold str_strip.
  by rewrite alnum_only_rstrip, alnum_only_lstrip, alnum_only_re_sub_underscores,
    alnum_only_re_sub_nonword.
Qed.

Lemma alnum_only_empty s : alnum_only s = EmptyString <-> has_alnum s = false.
Proof.
  unfold has_alnum. induction s as [|c s IH]; [done|]. simpl.
  destruct (is_alnum c); simpl; [split; discriminate|exact IH].
Qed.

Lemma has_alnum_app s t : has_alnum (s +:+ t) = has_alnum s || has_alnum t.
Proof.
  unfold has_alnum. induction s as [|c s IH]; [done|]. simpl.
  by rewrite IH, orb_assoc.
Qed.

Lemma has_alnum_cons c s : has_alnum (String c s) = is_alnum c || has_alnum s.
Proof. reflexivity. Qed.

Lemma contains_char_cons x c s :
  contains_char x (String c s) = Ascii.eqb x c || contains_char x s.
Proof. reflexivity. Qed.

(** Replacing a character that is no letter or digit by a text that has one. *)
Lemma has_alnum_str_replace old new s :
  is_alnum old = false -> has_alnum new = true ->
  has_alnum (str_replace old new s) = has_alnum s || contains_char old s.
Proof.
  intros Hold Hnew. induction s as [|c s IH]; [done|]. simpl str_replace.
  rewrite has_alnum_cons, contains_char_cons.
  destruct (Ascii.eqb_spec c old) as [->|Hne].
  - rewrite has_alnum_app, Hnew, Ascii.eqb_refl. simpl. by rewrite orb_true_r.
  - rewrite has_alnum_cons, IH. destruct (Ascii.eqb_spec old c); [congruence|].
    simpl. by rewrite orb_assoc.
Qed.

Lemma contains_char_app x s t :
  contains_char x (s +:+ t) = contains_char x s || contains_char x t.
Proof.
  induction s as [|c s IH]; [done|].
  change (String c s +:+ t) with (String c (s +:+ t)).
  by rewrite !contains_char_cons, IH, orb_assoc.
Qed.

Lemma contains_char_str_replace x old new s :
  x <> old -> contains_char x new = false ->
  contains_char x (str_replace old new s) = contains_char x s.
Proof.
  intros Hx Hnew. induction s as [|c s IH]; [done|]. simpl str_replace.
  rewrite contains_char_cons.
  destruct (Ascii.eqb_spec c old) as [->|Hne].
  - rewrite contains_char_app, Hnew, IH. by destruct (Ascii.eqb_spec x old).
  - by rewrite contains_char_cons, IH.
Qed.

(** A non-empty safe name starts with a letter or digit. *)
Lemma safe_name_has_alnum s :
  all_word s = true -> starts_with underscore s = false -> s <> EmptyString ->
  alnum_only s <> EmptyString.
Proof.
  destruct s as [|c s]; [done|]. simpl. intros Hw Hs _.
  apply andb_prop in Hw as [Hc _].
  destruct (is_alnum c) eqn:Ha; [done|].
  apply word_not_alnum in Ha as ->; [|done]. by rewrite Ascii.eqb_refl in Hs.
Qed.

End SanitizerMore.

(** X1. The names the sanitizer leaves unchanged are exactly the safe ones:
    word characters only, no two underscores in a row, no underscore first or
    last. *)
Theorem sanitize_column_name_fixed_points (s : string) :
  sanitize_column_name s = s <->
  all_word s = true /\ no_double_underscore s = true /\
  starts_with underscore s = false /\ ends_with underscore s = false.
Proof.
  split.
  - intros <-. apply sanitize_column_name_conditions.
  - intros (Hw & Hd & Hs & He). unfold sanitize_column_name, str_strip.
    rewrite (str_replace_id "%"%char) by (by apply all_word_contains_char).
    rewrite (str_replace_id "/"%char) by (by apply all_word_contains_char).
    rewrite re_sub_nonword_id, re_sub_underscores_id, lstrip_id by done.
    by apply rstrip_id.
Qed.

(** X2. On a name without [%] and [/] the sanitizer keeps every letter and
    digit, in the same order: it only turns other characters into
    underscores and removes underscores. *)
Theorem sanitize_column_name_keeps_alnum (s : string) :
  contains_char "%"%char s = false ->
  contains_char "/"%char s = false ->
  alnum_only (sanitize_column_name s) = alnum_only s.
Proof.
  intros Hp Hs. unfold sanitize_column_name.
  rewrite (str_replace_id "%"%char) by done.
  rewrite (str_replace_id "/"%char) by done.
  apply alnum_only_sanitize_steps.
Qed.

Lemma sanitize_column_name_keeps_alnum_witness :
  alnum_only (sanitize_column_name " unit price (EUR) #2 ") = "unitpriceEUR2".
Proof.
  rewrite (sanitize_column_name_keeps_alnum " unit price (EUR) #2 " eq_refl eq_refl).
  reflexivity.
Defined.

(** X3. The sanitized name is empty exactly when the raw name has no letter,
    no digit, no [%] and no [/]; such keys end up with the empty column
    label. *)
Theorem sanitize_column_name_empty (s : string) :
  sanitize_column_name s = EmptyString <->
  has_alnum s = false /\ contains_char "%"%char s = false /\
  contains_char "/"%char s = false.
Proof.
  assert (Hexp : has_alnum (str_replace "/"%char "_per_" (str_replace "%"%char "percent" s)) =
                 has_alnum s || contains_char "%"%char s || contains_char "/"%char s).
  { rewrite has_alnum_str_replace by done.
    rewrite has_alnum_str_replace by done.
    by rewrite contains_char_str_replace. }
  assert (Hal : alnum_only (sanitize_column_name s) = EmptyString <->
                has_alnum s = false /\ contains_char "%"%char s = false /\
                contains_char "/"%char s = false).
  { unfold sanitize_column_name. rewrite alnum_only_sanitize_steps, alnum_only_empty, Hexp.
    rewrite !orb_false_iff. tauto. }
  rewrite <- Hal. split; [by intros ->|].
  intros Hempty. destruct (sanitize_column_name_conditions s) as (Hw & _ & Hs & _).
  cbv zeta in *. destruct (decide (sanitize_column_name s = EmptyString)) as [|Hne]; [done|].
  by destruct (safe_name_has_alnum _ Hw Hs Hne).
Qed.

(** ** Flattener: what every flat record looks like *)

Section DictFacts.

Context {V : Type}.
Implicit Types (d other : dict V) (k : string) (v : V).

Lemma dict_keys_set d k v :
  dict_keys (dict_set d k v) =
  if decide (k ∈ dict_keys d) then dict_keys d else dict_keys d ++ [k].
Proof.
  unfold dict_keys. induction d as [|[k' v'] d IH]; [done|]. simpl.
  destruct (String.eqb_spec k' k) as [->|Hne]; simpl.
  - by rewrite decide_True by left.
  - rewrite IH. destruct (decide (k ∈ map fst d)).
    + by rewrite decide_True by (by right).
    + rewrite decide_False; [done|]. by intros [?|?]%elem_of_cons.
Qed.

(** Assigning a key never produces a second entry for it. *)
Lemma dict_set_NoDup d k v : NoDup (dict_keys d) -> NoDup (dict_keys (dict_set d k v)).
Proof.
  intros Hd. rewrite dict_keys_set. case_decide; [done|].
  apply NoDup_app. split; [done|]. split; [|apply NoDup_singleton].
  by intros x Hx ->%list_elem_of_singleton.
Qed.

Lemma dict_update_NoDup d other :
  NoDup (dict_keys d) -> NoDup (dict_keys (dict_update d other)).
Proof.
  unfold dict_update. revert d. induction other as [|[k v] other IH]; intros d Hd; [done|].
  simpl. by apply IH, dict_set_NoDup.
Qed.

Lemma dict_set_Forall (P : string * V -> Prop) d k v :
  Forall P d -> P (k, v) -> Forall P (dict_set d k v).
Proof.
  intros Hd Hkv. induction Hd as [|[k' v'] d Hx Hd IH]; simpl; [by constructor|].
  destruct (String.eqb_spec k' k) as [->|]; constructor; done.
Qed.

Lemma dict_update_Forall (P : string * V -> Prop) d other :
  Forall P d -> Forall P other -> Forall P (dict_update d other).
Proof.
  unfold dict_update. intros Hd Ho. revert d Hd.
  induction Ho as [|[k v] other Hkv Ho IH]; intros d Hd; [done|].
  simpl. by apply IH, dict_set_Forall.
Qed.

(** Assigning fresh keys one after the other appends them in order. *)
Lemma dict_set_fresh d k v : k ∉ dict_keys d -> dict_set d k v = d ++ [(k, v)].
Proof.
  unfold dict_keys. induction d as [|[k' v'] d IH]; [done|]. simpl.
  intros [Hne Hd]%not_elem_of_cons.
  destruct (String.eqb_spec k' k); [congruence|]. by rewrite IH.
Qed.

Lemma dict_update_fresh d other :
  NoDup (dict_keys d ++ dict_keys other) -> dict_update d other = d ++ other.
Proof.
  unfold dict_update. revert d. induction other as [|[k v] other IH]; intros d Hnd.
  - by rewrite app_nil_r.
  - simpl. assert (Hk : k ∉ dict_keys d).
    { apply NoDup_app in Hnd as (_ & Hdisj & _). intros Hin. apply (Hdisj k Hin). by left. }
    rewrite dict_set_fresh by done. rewrite IH.
    + by rewrite <- app_assoc.
    + unfold dict_keys in *. rewrite map_app, <- app_assoc. exact Hnd.
Qed.

End DictFacts.

Section JsonInduction.

(** Induction over a JSON value that reaches the elements of arrays and the
    values of objects. *)
Lemma json_nested_ind (P : json -> Prop) :
  P JNull -> (forall b, P (JBool b)) -> (forall z, P (JInt z)) ->
  (forall r, P (JFloat r)) -> (forall s, P (JStr s)) ->
  (forall items, Forall P items -> P (JArr items)) ->
  (forall members, Forall (fun kv => P kv.2) members -> P (JObj members)) ->
  forall v, P v.
Proof.
  intros HN HB HI HF HS HA HO. fix IH 1.
  intros [|b|z|r|s|items|members];
    [apply HN|apply HB|apply HI|apply HF|apply HS| |].
  - apply HA. induction items as [|x items IHitems]; constructor; [apply IH|exact IHitems].
  - apply HO. induction members as [|[k x] members IHm]; constructor; [apply IH|exact IHm].
Qed.

End JsonInduction.

Section FlatRecordShape.

Variable sep : string.

(** A property [E p] of the entries of a record built under the prefix [p]:
    it holds of a scalar stored under its own key, and it is inherited from
    the prefixes the recursion descends into. *)
Variable E : string -> string * json -> Prop.
Hypothesis E_leaf : forall p key v, is_scalar v = true -> E p (make_key p sep key, v).
Hypothesis E_object : forall p key kv, E (make_key p sep key) kv -> E p kv.
Hypothesis E_element : forall p key i kv,
  E (make_key p sep key +:+ sep +:+ str_of_nat i) kv -> E p kv.

Lemma flatten_json_entries : forall v p, Forall (E p) (flatten_json v p sep).
Proof.
  intros v.
  cut ((forall p, Forall (E p) (flatten_json v p sep)) /\
       (forall items, v = JArr items ->
          Forall (fun x => forall p, Forall (E p) (flatten_json x p sep)) items)).
  { by intros [H _]. }
  induction v as [|b|z|r|s|items IHitems|members IHmembers] using json_nested_ind;
    try (split; [intros p; constructor|discriminate]).
  - split; [intros p; constructor|]. intros ? [= <-].
    eapply Forall_impl; [exact IHitems|]. by intros x [H _].
  - split; [|discriminate]. intros p. rewrite flatten_json_obj.
    generalize (Forall_nil_2 (E p)). generalize (@nil (string * json)).
    induction IHmembers as [|[key value] members [Hval Helems] _ IHfold];
      intros fd Hfd; [done|].
    simpl fold_left. apply IHfold. unfold flatten_entry. simpl.
    destruct value as [|b|z|r|s|elems|ms];
      try (apply dict_set_Forall; [done|by apply E_leaf]).
    + destruct (forallb is_dict elems).
      * specialize (Helems elems eq_refl). clear -Helems Hfd E_element.
        generalize 0. revert fd Hfd.
        induction Helems as [|item elems Hitem _ IHe]; intros fd Hfd i; [done|].
        simpl. apply IHe. apply dict_update_Forall; [done|].
        eapply Forall_impl; [apply Hitem|]. intros kv. apply E_element.
      * apply dict_set_Forall; [done|by apply E_leaf].
    + apply dict_update_Forall; [done|].
      eapply Forall_impl; [apply Hval|]. intros kv. apply E_object.
Qed.

End FlatRecordShape.

Section FlattenerMore.

Lemma flatten_elems_NoDup new_key sep elems : forall i fd,
  NoDup (dict_keys fd) -> NoDup (dict_keys (flatten_elems new_key sep elems i fd)).
Proof.
  induction elems as [|item elems IH]; intros i fd Hfd; [done|].
  simpl. by apply IH, dict_update_NoDup.
Qed.

Lemma flatten_entry_NoDup p sep fd kv :
  NoDup (dict_keys fd) -> NoDup (dict_keys (flatten_entry p sep fd kv)).
Proof.
  intros Hfd. unfold flatten_entry. destruct kv as [key value]. simpl.
  destruct value; try by apply dict_set_NoDup.
  - destruct (forallb is_dict items);
      [by apply flatten_elems_NoDup|by apply dict_set_NoDup].
  - by apply dict_update_NoDup.
Qed.

Lemma flatten_json_NoDup v p sep : NoDup (dict_keys (flatten_json v p sep)).
Proof.
  destruct v; try apply NoDup_nil_2. rewrite flatten_json_obj.
  generalize (NoDup_nil_2 (A := string)).
  change (@nil string) with (dict_keys (@nil (string * json))).
  generalize (@nil (string * json)).
  induction members as [|kv members IH]; intros fd Hfd; [done|].
  simpl. by apply IH, flatten_entry_NoDup.
Qed.

Lemma string_app_assoc (a b c : string) : (a +:+ b) +:+ c = a +:+ (b +:+ c).
Proof.
  induction a as [|x a IH]; [done|].
  change (String x ((a +:+ b) +:+ c) = String x (a +:+ (b +:+ c))). by rewrite IH.
Qed.

Lemma string_app_inj (a b c : string) : a +:+ b = a +:+ c -> b = c.
Proof. apply (inj (String.append a)). Qed.

Lemma make_key_inj p sep k1 k2 : make_key p sep k1 = make_key p sep k2 -> k1 = k2.
Proof.
  unfold make_key. destruct (String.eqb p EmptyString); [done|].
  intros H. by apply string_app_inj, string_app_inj in H.
Qed.

(** An object whose values are all scalars: every member is stored under its
    own key, in order. *)
Lemma flatten_scalars_fold p sep members : forall fd,
  Forall (fun kv => is_scalar kv.2 = true) members ->
  NoDup (dict_keys fd ++ map (fun kv => make_key p sep kv.1) members) ->
  fold_left (flatten_entry p sep) members fd =
  fd ++ map (fun kv => (make_key p sep kv.1, kv.2)) members.
Proof.
  induction members as [|[key value] members IH]; intros fd Hsc Hnd.
  - by rewrite app_nil_r.
  - apply Forall_cons in Hsc as [Hv Hsc]. simpl in *.
    assert (Hstep : flatten_entry p sep fd (key, value) =
                    fd ++ [(make_key p sep key, value)]).
    { unfold flatten_entry. simpl. rewrite <- dict_set_fresh.
      - by destruct value.
      - apply NoDup_app in Hnd as (_ & Hdisj & _). intros Hin.
        apply (Hdisj _ Hin). by left. }
    rewrite Hstep, IH; [by rewrite <- app_assoc|done|].
    unfold dict_keys in *. rewrite map_app, <- app_assoc. exact Hnd.
Qed.

End FlattenerMore.


(** X5. No nested structure remains: every value of a flat record is a
    scalar (a string, a number, a boolean or null). *)
Theorem flatten_json_values_scalar (v : json) (parent_key sep : string) :
  Forall (fun kv => is_scalar kv.2 = true) (flatten_json v parent_key sep).
Proof.
  apply (flatten_json_entries sep (fun _ kv => is_scalar kv.2 = true)); auto.
Qed.

(** X6. Under a non-empty prefix every key of the record starts with the
    prefix followed by the separator. *)
Theorem flatten_json_keys_prefixed (v : json) (parent_key sep : string) :
  parent_key <> EmptyString ->
  Forall (fun kv => exists rest, kv.1 = parent_key +:+ sep +:+ rest)
    (flatten_json v parent_key sep).
Proof.
  intros Hp.
  pose proof (flatten_json_entries sep
    (fun p kv => p <> EmptyString -> exists rest, kv.1 = p +:+ sep +:+ rest)) as H.
  eapply Forall_impl; [apply H|by auto]; clear H Hp v parent_key.
  - intros p key v _ Hp. exists key. unfold make_key. simpl.
    by destruct (String.eqb_spec p EmptyString).
  - intros p key kv H Hp. unfold make_key in H.
    destruct (String.eqb_spec p EmptyString); [done|].
    destruct H as [rest ->]; [by destruct p|].
    exists (key +:+ sep +:+ rest). by rewrite !string_app_assoc.
  - intros p key i kv H Hp. unfold make_key in H.
    destruct (String.eqb_spec p EmptyString); [done|].
    destruct H as [rest ->]; [by destruct p|].
    exists (key +:+ sep +:+ str_of_nat i +:+ sep +:+ rest). by rewrite !string_app_assoc.
Qed.

Lemma flatten_json_keys_prefixed_witness :
  Forall (fun kv : string * json => exists rest, kv.1 = "row" +:+ "_" +:+ rest)
    (flatten_json
       (JObj [("id", JInt 7); ("a", JArr [JObj [("x", JInt 1)]]); ("b", JObj [("y", JNull)])])
       "row" "_").
Proof. apply flatten_json_keys_prefixed. discriminate. Defined.

(** X7. An object whose values are all scalars and whose keys are distinct
    is flattened member by member: same order, same values, each key put
    under the prefix.  With the empty prefix the object is unchanged. *)
Theorem flatten_json_flat_object
    (members : list (string * json)) (parent_key sep : string) :
  Forall (fun kv => is_scalar kv.2 = true) members ->
  NoDup (dict_keys members) ->
  flatten_json (JObj members) parent_key sep =
    map (fun kv => (make_key parent_key sep kv.1, kv.2)) members /\
  flatten_json (JObj members) EmptyString sep = members.
Proof.
  intros Hsc Hnd.
  assert (Hgen : forall p, flatten_json (JObj members) p sep =
                           map (fun kv => (make_key p sep kv.1, kv.2)) members).
  { intros p. rewrite flatten_json_obj, flatten_scalars_fold; [done|done|]. simpl.
    unfold dict_keys in Hnd. rewrite <- (map_map fst (make_key p sep)).
    apply NoDup_fmap_2; [|done]. intros k1 k2. apply make_key_inj. }
  split; [apply Hgen|]. rewrite Hgen.
  rewrite <- (map_id members) at 2. apply map_ext. by intros [k x].
Qed.

Lemma flatten_json_flat_object_witness :
  flatten_json (JObj [("id", JInt 7); ("name", JStr "ann"); ("note", JNull)]) "row" "_" =
  [("row_id", JInt 7); ("row_name", JStr "ann"); ("row_note", JNull)].
Proof.
  destruct (flatten_json_flat_object
              [("id", JInt 7); ("name", JStr "ann"); ("note", JNull)] "row" "_") as [H _].
  - repeat constructor.
  - by compute_done.
  - rewrite H. reflexivity.
Defined.

(** X8. Flattening is idempotent: a flat record, read as an object and
    flattened again from the top, is returned as it is. *)
Theorem flatten_json_idempotent (v : json) (parent_key sep sep' : string) :
  flatten_json (JObj (flatten_json v parent_key sep)) EmptyString sep' =
  flatten_json v parent_key sep.
Proof.
  rewrite flatten_json_obj, flatten_scalars_fold.
  - simpl. rewrite <- (map_id (flatten_json v parent_key sep)) at 2.
    apply map_ext. by intros [k x].
  - apply (flatten_json_entries sep (fun _ kv => is_scalar kv.2 = true)); auto.
  - simpl. erewrite map_ext; [apply flatten_json_NoDup|]. by intros [k x].
Qed.

(** X9. A member whose value is an object contributes exactly the record of
    that object under the extended prefix; alone in its object, it is that
    record. *)
Theorem flatten_json_nested_object
    (key : string) (inner : list (string * json)) (parent_key sep : string) :
  flatten_json (JObj [(key, JObj inner)]) parent_key sep =
  flatten_json (JObj inner) (make_key parent_key sep key) sep.
Proof.
  rewrite (flatten_json_obj parent_key sep [(key, JObj inner)]). simpl fold_left.
  unfold flatten_entry. cbn [fst snd].
  rewrite dict_update_fresh; [done|]. apply flatten_json_NoDup.
Qed.

(** ** Top-level dispatch: how many rows *)

Section DispatchMore.

Lemma not_qualifies_forallb members :
  existsb qualifies members = false ->
  forallb (fun kv => negb (qualifies kv)) members = true.
Proof.
  induction members as [|kv members IH]; [done|]. simpl.
  intros [-> H]%orb_false_elim. simpl. by apply IH.
Qed.

End DispatchMore.

(** X10. An object without any member that is an array of objects gives
    exactly one row, the flattened object itself (arrays of scalars are
    joined inside that row). *)
Theorem flatten_top_single_record (members : list (string * json)) :
  existsb qualifies members = false ->
  flatten_top (JObj members) = Some [flatten_json (JObj members) EmptyString "_"].
Proof.
  intros H. rewrite flatten_top_obj. f_equal.
  by apply dispatch_fold_skip, not_qualifies_forallb.
Qed.

Lemma flatten_top_single_record_witness :
  flatten_top (JObj [("id", JInt 7); ("tags", JArr [JStr "a"; JStr "b"])]) =
  Some [[("id", JInt 7); ("tags", JStr "a, b")]].
Proof.
  rewrite (flatten_top_single_record
             [("id", JInt 7); ("tags", JArr [JStr "a"; JStr "b"])] eq_refl).
  reflexivity.
Defined.

(** X11. The documents with no rows are exactly the empty array and the
    objects whose last array-of-objects member is empty; every other object
    or array gives at least one row. *)
Theorem flatten_top_empty_iff (json_data : json) :
  flatten_top json_data = Some [] <->
  json_data = JArr [] \/
  exists pre key post,
    json_data = JObj (pre ++ (key, JArr []) :: post) /\
    forallb (fun kv => negb (qualifies kv)) post = true.
Proof.
  split.
  - destruct json_data as [| | | | |items|members]; try discriminate.
    + destruct items; [by left|discriminate].
    + intros H. right. destruct (existsb qualifies members) eqn:E.
      * destruct (last_qualifying_member members E)
          as (pre & key & items & post & -> & Hitems & Hpost).
        rewrite flatten_top_obj in H. injection H as H.
        rewrite (dispatch_fold_last pre key items post) in H by done.
        destruct items; [|discriminate]. by exists pre, key, post.
      * rewrite flatten_top_obj in H. injection H as H.
        rewrite dispatch_fold_skip in H by (by apply not_qualifies_forallb).
        discriminate.
  - intros [->|(pre & key & post & -> & Hpost)]; [done|].
    rewrite flatten_top_obj. f_equal. by apply (dispatch_fold_last pre key []).
Qed.

(** X12. A top-level array gives one row per element, in order; an element
    that is not an object gives an empty row, it does not stop the run. *)
Theorem flatten_top_array_rows (items : list json) :
  exists rows,
    flatten_top (JArr items) = Some rows /\
    length rows = length items /\
    forall i item, items !! i = Some item ->
      rows !! i = Some (flatten_json item EmptyString "_") /\
      (is_dict item = false -> rows !! i = Some []).
Proof.
  exists (map (fun item => flatten_json item EmptyString "_") items).
  split; [done|]. split; [apply length_map|].
  intros i item Hi.
  assert (Hrow : map (fun item => flatten_json item EmptyString "_") items !! i =
                 Some (flatten_json item EmptyString "_")).
  { change (map ?f items) with (f <$> items). by rewrite list_lookup_fmap, Hi. }
  split; [exact Hrow|]. intros Hnd. etrans; [exact Hrow|]. by destruct item.
Qed.

(** ** Column reconciler: frames it leaves alone, and what it never does *)

Section ReconcilerMore.

Implicit Types (df : DataFrame) (lc : gmap string string) (c col : string).

(** Without two labels of the same lower-case form the loop changes nothing
    and marks nothing. *)
Lemma merge_loop_no_collision cols : forall df lc drops,
  NoDup (map str_lower cols) ->
  (forall c, c ∈ cols -> lc !! str_lower c = None) ->
  merge_loop cols df lc drops = Some (df, drops).
Proof.
  induction cols as [|col rest IH]; intros df lc drops Hnd Hlc; [done|].
  simpl in Hnd. apply NoDup_cons in Hnd as [Hcol Hrest].
  simpl. rewrite (Hlc col) by left. apply IH; [done|].
  intros c Hc. rewrite lookup_insert_ne; [apply Hlc; by right|].
  intros Heq. apply Hcol. rewrite Heq. by apply list_elem_of_fmap_2.
Qed.

Lemma frame_drop_nil df : frame_drop df [] = df.
Proof.
  destruct df as [n d]. unfold frame_drop. simpl. f_equal.
  induction d as [|kv d IH]; [done|]. rewrite filter_cons_True by done. by rewrite IH.
Qed.

Lemma frame_get_Some_elem df c s : frame_get df c = Some s -> c ∈ columns df.
Proof.
  unfold frame_get, columns.
  destruct (filter _ (data df)) as [|[k s'] [|? ?]] eqn:E; try discriminate.
  intros _. assert (Hin : (k, s') ∈ filter (fun kv : string * Series => kv.1 = c) (data df))
    by (rewrite E; left).
  apply list_elem_of_filter in Hin as [Hk Hin]. simpl in Hk. subst k.
  apply list_elem_of_fmap. by exists (c, s').
Qed.

(** Whatever the labels, a run of the loop that ends normally has kept the
    labels and the number of rows. *)
Lemma merge_loop_shape cols : forall df lc drops df' drops',
  merge_loop cols df lc drops = Some (df', drops') ->
  columns df' = columns df /\ nrows df' = nrows df.
Proof.
  induction cols as [|col rest IH]; intros df lc drops df' drops' Hrun.
  { by injection Hrun as <- _. }
  simpl in Hrun. destruct (lc !! str_lower col) as [e|]; [|by eapply IH].
  destruct (frame_get df e) as [a|] eqn:Ha; [|done].
  destruct (frame_get df col) as [b|] eqn:Hb; [|done]. simpl in Hrun.
  apply IH in Hrun as [Hcols Hrows].
  rewrite columns_frame_set in Hcols by (by eapply frame_get_Some_elem).
  done.
Qed.

Lemma columns_frame_drop df labels :
  columns (frame_drop df labels) =
  filter (fun c => negb (existsb (String.eqb c) labels)) (columns df).
Proof.
  unfold columns, frame_drop. cbn [data].
  exact (map_fst_filter_label (fun k => negb (existsb (String.eqb k) labels)) (data df)).
Qed.

(** On distinct labels the kept columns are the canonical ones. *)
Lemma reconciled_columns df :
  NoDup (columns df) ->
  exists out,
    handle_case_insensitive_duplicates df = Some out /\
    columns out = filter (fun c => canonical_of (columns df) c = Some c) (columns df).
Proof.
  intros Hnd.
  destruct (merge_loop_spec (columns df) df ∅ [] Hnd Hnd)
    as (df' & Hrun & Hlabels & _ & _); [done|by intros l e H; rewrite lookup_empty in H|].
  simpl in Hrun. eexists. unfold handle_case_insensitive_duplicates.
  rewrite Hrun. simpl. split; [done|].
  rewrite columns_frame_drop, Hlabels. apply filter_iff_elem. intros c Hc.
  rewrite negb_True, Is_true_true, existsb_eqb_elem, list_elem_of_filter.
  unfold canon. rewrite lookup_empty.
  destruct (decide (canonical_of (columns df) c = Some c)); tauto.
Qed.

Lemma canonical_lower_NoDup (labels : list string) :
  NoDup labels ->
  NoDup (map str_lower (filter (fun c => canonical_of labels c = Some c) labels)).
Proof.
  intros Hnd. apply (NoDup_fmap_2_strong str_lower); [|by apply NoDup_filter].
  intros c1 c2 [H1 _]%list_elem_of_filter [H2 _]%list_elem_of_filter Hlow.
  rewrite (canonical_of_same_lower labels c1 c2 Hlow) in H1. congruence.
Qed.

End ReconcilerMore.

(** X13. A frame in which no two labels agree up to letter case is returned
    as it is: same columns, same cells. *)
Theorem handle_case_insensitive_duplicates_no_collision (df : DataFrame) :
  NoDup (map str_lower (columns df)) ->
  handle_case_insensitive_duplicates df = Some df.
Proof.
  intros Hnd. unfold handle_case_insensitive_duplicates.
  rewrite merge_loop_no_collision; [|done|intros c _; apply lookup_empty].
  simpl. by rewrite frame_drop_nil.
Qed.

Lemma handle_case_insensitive_duplicates_no_collision_witness :
  handle_case_insensitive_duplicates sample_batch = Some sample_batch.
Proof.
  apply handle_case_insensitive_duplicates_no_collision. by compute_done.
Defined.

(** X14. Reconciling is idempotent: on distinct labels the result has no
    case collision left, so a second pass returns it unchanged. *)
Theorem handle_case_insensitive_duplicates_idempotent (df : DataFrame) :
  NoDup (columns df) ->
  exists out,
    handle_case_insensitive_duplicates df = Some out /\
    handle_case_insensitive_duplicates out = Some out.
Proof.
  intros Hnd. destruct (reconciled_columns df Hnd) as (out & Hrun & Hcols).
  exists out. split; [exact Hrun|].
  unfold handle_case_insensitive_duplicates.
  rewrite merge_loop_no_collision; [|by rewrite Hcols; apply canonical_lower_NoDup
                                    |intros c _; apply lookup_empty].
  simpl. by rewrite frame_drop_nil.
Qed.

Lemma handle_case_insensitive_duplicates_idempotent_witness :
  exists out,
    handle_case_insensitive_duplicates sample_frame = Some out /\
    handle_case_insensitive_duplicates out = Some out.
Proof.
  apply handle_case_insensitive_duplicates_idempotent. by compute_done.
Defined.

(** X15. Whenever the reconciler returns, on any frame, it has kept the
    number of rows and has only removed columns: the labels of the result
    are a sub-sequence of the labels it was given. *)
Theorem handle_case_insensitive_duplicates_only_drops (df out : DataFrame) :
  handle_case_insensitive_duplicates df = Some out ->
  nrows out = nrows df /\ sublist (columns out) (columns df).
Proof.
  unfold handle_case_insensitive_duplicates. intros Hrun.
  destruct (merge_loop (columns df) df ∅ []) as [[df' drops]|] eqn:E; [|done].
  simpl in Hrun. injection Hrun as <-.
  apply merge_loop_shape in E as [Hcols Hrows]. split; [exact Hrows|].
  rewrite columns_frame_drop, Hcols. apply sublist_filter.
Qed.

Lemma handle_case_insensitive_duplicates_only_drops_witness :
  nrows sample_frame = 2 /\
  sublist ["Name"; "age"] (columns sample_frame).
Proof.
  destruct (handle_case_insensitive_duplicates_only_drops sample_frame
              (mkFrame 2 [("Name", [Val (JStr "ann"); Val (JStr "bob")]);
                          ("age", [Val (JInt 3); Val (JInt 4)])]) eq_refl) as [H1 H2].
  split; [by rewrite <- H1|exact H2].
Defined.

(** ** Schema enforcer: what it never touches, and the run without failure *)

Section EnforcerMore.

Variable astype : dtype -> Series -> option Series.

Implicit Types (df : DataFrame) (S : dict string) (c col : string).

Lemma writes_app out1 out2 : writes (out1 ++ out2) = writes out1 ++ writes out2.
Proof. apply filter_app. Qed.

(** The loop keeps the labels and the number of rows and prints only. *)
Lemma enforce_loop_shape S cols : forall df out df' out' raised,
  enforce_loop astype S cols df out = (df', out', raised) ->
  columns df' = columns df /\ nrows df' = nrows df /\ writes out' = writes out.
Proof.
  induction cols as [|col rest IH]; intros df out df' out' raised Hrun.
  { by injection Hrun as <- <- _. }
  simpl in Hrun. destruct (dict_get S col) as [bq|]; [|by eapply IH].
  destruct (type_mapping bq) as [pt|].
  - destruct (frame_get df col) as [s|] eqn:Hs; simpl in Hrun.
    + destruct (astype (cast_target pt) s) as [s'|].
      * apply IH in Hrun as (Hcols & Hrows & Hw).
        rewrite columns_frame_set in Hcols by (by eapply frame_get_Some_elem). done.
      * by injection Hrun as <- <- _.
    + by injection Hrun as <- <- _.
  - apply IH in Hrun as (Hcols & Hrows & Hw). rewrite writes_app in Hw.
    simpl in Hw. by rewrite app_nil_r in Hw.
Qed.

(** The loop when no cast raises: it runs to the end, prints one line per
    column of unknown declared type, and has cast every column the schema
    asks for. *)
Lemma enforce_loop_succeeds S cols : forall df out,
  NoDup (columns df) -> NoDup cols ->
  (forall c, c ∈ cols -> c ∈ columns df) ->
  (forall c t s, c ∈ cols -> cast_of S c = Some t -> dict_get (data df) c = Some s ->
     is_Some (astype t s)) ->
  exists df',
    enforce_loop astype S cols df out = (df', out ++ omap (unmapped_line S) cols, false) /\
    columns df' = columns df /\
    (forall c, c ∉ cols -> dict_get (data df') c = dict_get (data df) c) /\
    (forall c s, c ∈ cols -> dict_get (data df) c = Some s ->
       dict_get (data df') c =
       match cast_of S c with Some t => astype t s | None => Some s end).
Proof.
  induction cols as [|c0 rest IH]; intros df out Hnd Hcols Hsub Hok.
  { exists df. simpl. rewrite app_nil_r. repeat split; try done.
    intros c s Hc. by apply elem_of_nil in Hc. }
  apply NoDup_cons in Hcols as [Hc0 Hrest].
  assert (Hc0_in : c0 ∈ columns df) by (apply Hsub; left).
  assert (Hsub' : forall c, c ∈ rest -> c ∈ columns df) by (intros c Hc; apply Hsub; by right).
  destruct (dict_get_is_Some (data df) c0 Hc0_in) as [s0 Hs0].
  simpl enforce_loop. csimpl. unfold unmapped_line at 1.
  destruct (cast_of S c0) as [t0|] eqn:Hcast0.
  - destruct (cast_of_Some _ _ _ Hcast0) as (bq & pt & Hbq & Hpt & Ht).
    destruct (Hok c0 t0 s0) as [s1 Hs1]; [by left|done|done|].
    rewrite Hbq, Hpt, Ht, frame_get_dict_get, Hs0 by done. simpl. rewrite Hs1.
    assert (Hother : forall c, c <> c0 ->
              dict_get (data (frame_set df c0 s1)) c = dict_get (data df) c).
    { intros c Hc. rewrite dict_get_frame_set by done.
      by destruct (String.eqb_spec c0 c); [congruence|]. }
    destruct (IH (frame_set df c0 s1) out) as (df' & Hrun & Hlabels & Hrest' & Hcast).
    { by rewrite columns_frame_set. }
    { done. }
    { intros c Hc. rewrite columns_frame_set by done. by apply Hsub'. }
    { intros c t s Hc Hct. rewrite Hother by (by intros ->).
      apply (Hok c); [by right|done]. }
    rewrite columns_frame_set in Hlabels by done.
    exists df'. split; [exact Hrun|]. split; [done|]. split.
    + intros c [Hne Hc]%not_elem_of_cons. rewrite Hrest' by done. by apply Hother.
    + intros c s [->|Hc]%elem_of_cons Hs.
      * rewrite Hrest' by done. rewrite dict_get_frame_set, String.eqb_refl, Hcast0 by done.
        congruence.
      * apply Hcast; [done|]. rewrite Hother; [done|by intros ->].
  - assert (Hskip : exists line,
              unmapped_line S c0 = line /\
              enforce_loop astype S (c0 :: rest) df out =
              enforce_loop astype S rest df (out ++ option_list line)).
    { unfold unmapped_line, cast_of in *. simpl.
      destruct (dict_get S c0) as [bq|]; [|eexists; split; [done|by rewrite app_nil_r]].
      destruct (type_mapping bq); [done|]. by eexists. }
    destruct Hskip as (line & Hline & Hskip). simpl in Hskip. fold (unmapped_line S c0).
    rewrite Hskip, Hline.
    destruct (IH df (out ++ option_list line)) as (df' & Hrun & Hlabels & Hrest' & Hcast);
      try done.
    { intros c t s Hc. apply (Hok c). by right. }
    exists df'. split.
    { rewrite Hrun. f_equal. f_equal. rewrite <- app_assoc. f_equal. by destruct line. }
    split; [done|]. split.
    + intros c [_ Hc]%not_elem_of_cons. by apply Hrest'.
    + intros c s [->|Hc]%elem_of_cons Hs; [|by apply Hcast].
      rewrite Hrest' by done. by rewrite Hcast0.
Qed.

End EnforcerMore.

(** X16. Whenever the table look-up answers (table found or not found), the
    enforcer returns a frame with the same labels, in the same order, and the
    same number of rows, and it has sent nothing to the store: it never adds,
    drops or renames a column, whatever the casts do. *)
Theorem schema_enforcement_keeps_shape
    (astype : dtype -> Series -> option Series) (lookup : table_lookup) (df : DataFrame) :
  lookup <> LookupFailed ->
  exists df' out,
    schema_enforcement astype lookup df = Some (df', out) /\
    columns df' = columns df /\ nrows df' = nrows df /\ writes out = [].
Proof.
  intros Hlookup. destruct lookup as [schema| |]; [|by exists df, []|done].
  unfold schema_enforcement.
  destruct (enforce_loop astype (schema_dict schema) (columns df) df
              [Print "Table already exist. Handling schema type mismatch."])
    as [[df' out'] raised] eqn:E.
  apply enforce_loop_shape in E as (Hcols & Hrows & Hw).
  eexists _, _. split; [done|]. split; [done|]. split; [done|].
  destruct raised; [|done]. by rewrite writes_app, Hw.
Qed.

Lemma schema_enforcement_keeps_shape_witness :
  exists df' out,
    schema_enforcement astype_sample (TableFound sample_schema) sample_batch =
      Some (df', out) /\
    columns df' = ["code"; "age"; "zip"] /\ nrows df' = 1 /\ writes out = [].
Proof.
  apply (schema_enforcement_keeps_shape astype_sample (TableFound sample_schema)
           sample_batch).
  discriminate.
Defined.

(** X17. With an existing table and distinct labels, when no cast raises the
    enforcer casts every column that the schema declares with a known type,
    leaves every other column as it is, and prints, after the opening line,
    exactly one line per column of unknown declared type and no error. *)
Theorem schema_enforcement_all_casts_succeed
    (astype : dtype -> Series -> option Series) (schema : list (string * string))
    (df : DataFrame) :
  NoDup (columns df) ->
  (forall c t s, c ∈ columns df -> cast_of (schema_dict schema) c = Some t ->
     frame_get df c = Some s -> is_Some (astype t s)) ->
  exists df',
    schema_enforcement astype (TableFound schema) df =
      Some (df', Print "Table already exist. Handling schema type mismatch." ::
                 omap (unmapped_line (schema_dict schema)) (columns df)) /\
    columns df' = columns df /\
    forall c s, frame_get df c = Some s ->
      frame_get df' c =
      match cast_of (schema_dict schema) c with Some t => astype t s | None => Some s end.
Proof.
  intros Hnd Hok.
  destruct (enforce_loop_succeeds astype (schema_dict schema) (columns df) df
              [Print "Table already exist. Handling schema type mismatch."] Hnd Hnd)
    as (df' & Hrun & Hlabels & _ & Hcast); [done| |].
  { intros c t s Hc Hct Hs. apply (Hok c); [done|done|]. by rewrite frame_get_dict_get. }
  exists df'. unfold schema_enforcement. rewrite Hrun. split; [done|]. split; [done|].
  intros c s Hs. pose proof (frame_get_Some_elem _ _ _ Hs) as Hc.
  rewrite frame_get_dict_get in Hs |- * by (by rewrite ?Hlabels). by apply Hcast.
Qed.

Lemma schema_enforcement_all_casts_succeed_witness :
  exists df',
    schema_enforcement astype_sample
      (TableFound [("code", "STRING"); ("age", "GEOGRAPHY")]) sample_batch =
      Some (df', [Print "Table already exist. Handling schema type mismatch.";
                  Print "No mapping for BigQuery type 'GEOGRAPHY' for column 'age'"]) /\
    frame_get df' "code" = Some [Val (JStr "5")] /\
    frame_get df' "age" = Some [Val (JStr "thirty")] /\
    frame_get df' "zip" = Some [Val (JInt 1)].
Proof.
  destruct (schema_enforcement_all_casts_succeed astype_sample
              [("code", "STRING"); ("age", "GEOGRAPHY")] sample_batch)
    as (df' & Hrun & _ & Hcast).
  - by compute_done.
  - intros c t s Hc Hct Hs.
    assert (c = "code") as ->.
    { vm_compute in Hc. repeat (apply elem_of_cons in Hc as [->|Hc]; [try done|]);
        [..|by apply elem_of_nil in Hc]; discriminate. }
    vm_compute in Hct, Hs. injection Hct as <-. injection Hs as <-. by eexists.
  - exists df'. split; [exact Hrun|].
    split; [|split]; erewrite Hcast by reflexivity; reflexivity.
Defined.

(** ** Orchestrator: how a run ends and what it sends *)

Section OrchestratorMore.

Variable astype : dtype -> Series -> option Series.

Implicit Types (df : DataFrame) (w : World) (out : list effect).

Lemma schema_enforcement_Some_shape lookup df df' out :
  schema_enforcement astype lookup df = Some (df', out) ->
  columns df' = columns df /\ nrows df' = nrows df /\ writes out = [].
Proof.
  destruct lookup as [schema| |]; simpl; [|by intros [= <- <-]|done].
  destruct (enforce_loop astype (schema_dict schema) (columns df) df
              [Print "Table already exist. Handling schema type mismatch."])
    as [[df1 out1] raised] eqn:E.
  apply (enforce_loop_shape astype) in E as (Hcols & Hrows & Hw).
  intros [= <- <-]. split; [done|]. split; [done|].
  destruct raised; [|done]. by rewrite writes_app, Hw.
Qed.

Lemma frame_set_elem df c s : (c, s) ∈ data (frame_set df c s).
Proof.
  unfold frame_set. simpl. destruct (existsb (String.eqb c) (columns df)) eqn:E.
  - apply existsb_eqb_elem in E. unfold columns in E.
    apply list_elem_of_fmap in E as ([k s'] & Hk & Hin). simpl in Hk. subst k.
    apply list_elem_of_fmap. exists (c, s'). simpl. by rewrite String.eqb_refl.
  - apply elem_of_app. right. left.
Qed.

Lemma frame_set_elem_other df c s c' s' :
  c' <> c -> (c', s') ∈ data df -> (c', s') ∈ data (frame_set df c s).
Proof.
  intros Hne Hin. unfold frame_set. simpl.
  destruct (existsb (String.eqb c) (columns df)).
  - apply list_elem_of_fmap. exists (c', s'). simpl.
    by destruct (String.eqb_spec c' c).
  - apply elem_of_app. by left.
Qed.

Lemma sanitize_column_name_is_safe raw : safe_name (sanitize_column_name raw) = true.
Proof.
  destruct (sanitize_column_name_conditions raw) as (Hw & Hd & Hs & He).
  cbv zeta in *. unfold safe_name. by rewrite Hw, Hd, Hs, He.
Qed.

(** Renaming the columns of a frame to the sanitized labels leaves safe
    labels only. *)
Lemma sanitized_labels_safe df :
  Forall (fun c => safe_name c = true)
    (columns (set_columns df (map sanitize_column_name (columns df)))).
Proof.
  unfold columns, set_columns. cbn [data].
  change (map fst (zip ?a ?b)) with ((zip a b).*1).
  rewrite fst_zip by (by rewrite !length_map).
  apply Forall_forall. intros c (raw & -> & _)%list_elem_of_fmap.
  apply sanitize_column_name_is_safe.
Qed.

Lemma columns_frame_set_elem df c s c' :
  c' ∈ columns (frame_set df c s) -> c' = c \/ c' ∈ columns df.
Proof.
  destruct (decide (c ∈ columns df)) as [Hin|Hout].
  - rewrite columns_frame_set by done. by right.
  - unfold frame_set, columns at 1. simpl.
    assert (existsb (String.eqb c) (columns df) = false) as ->.
    { apply not_true_is_false. by rewrite existsb_eqb_elem. }
    rewrite map_app. simpl. intros [?|?%list_elem_of_singleton]%elem_of_app; [by right|by left].
Qed.

(** What the second half of a run prints and sends: either it fails before
    the append, or it sends one frame and ends with the line of success or
    with an error. *)
Lemma load_rows_effects w file_name records out :
  load_rows astype w file_name records out = out ++ [error_line] \/
  exists df out' final,
    nrows df = length records /\ writes out' = [] /\
    Forall (fun c => safe_name c = true) (columns df) /\
    (final = error_line \/
     to_gbq_ok w = true /\
     final = Print ("Data successfully inserted into " +:+
                    table_id_of w file_name +:+ ".")) /\
    load_rows astype w file_name records out =
      out ++ out' ++
      [Print ("Inserting data from file " +:+ file_name +:+
              " into BigQuery table " +:+ table_id_of w file_name);
       ToGbq (table_id_of w file_name) (project w) (stamped w file_name df); final].
Proof.
  unfold load_rows.
  set (df0 := set_columns _ _).
  destruct (handle_case_insensitive_duplicates df0) as [df1|] eqn:Hrec; [|by left].
  destruct (schema_enforcement astype _ df1) as [[df2 out']|] eqn:Henf; [|by left].
  right. apply schema_enforcement_Some_shape in Henf as (Hcols2 & Hrows2 & Hw).
  assert (Hshape1 : nrows df1 = length records /\
                    Forall (fun c => safe_name c = true) (columns df1)).
  { unfold handle_case_insensitive_duplicates in Hrec.
    destruct (merge_loop (columns df0) df0 ∅ []) as [[df' drops]|] eqn:E; [|done].
    simpl in Hrec. injection Hrec as <-. apply merge_loop_shape in E as [Hc Hr].
    split; [simpl; by rewrite Hr|].
    rewrite columns_frame_drop, Hc. apply Forall_forall.
    intros c [_ Hin]%list_elem_of_filter. revert c Hin.
    apply Forall_forall, sanitized_labels_safe. }
  destruct Hshape1 as [Hrows1 Hsafe1].
  exists df2, out'.
  destruct (to_gbq_ok w) eqn:Hok; eexists; (split; [congruence|]); (split; [done|]);
    (split; [by rewrite Hcols2|]);
    (split; [|by rewrite <- !app_assoc]); [by right|by left].
Qed.

Lemma writes_nil_not_elem out e : writes out = [] -> e ∈ out -> is_write e = false.
Proof.
  intros Hw Hin. destruct (is_write e) eqn:E; [|done].
  assert (e ∈ writes out) by (apply list_elem_of_filter; by rewrite E).
  rewrite Hw in *. by apply elem_of_nil in H.
Qed.


End OrchestratorMore.


(** Every append of a run is the stamped frame of a non-empty list of
    records, sent to the table derived from the file name. *)
Lemma process_json_file_sent
    (astype : dtype -> Series -> option Series) (w : World) (event : Event)
    (t p : string) (df : DataFrame) :
  ToGbq t p df ∈ (process_json_file astype w event).2 ->
  exists json_data records df1,
    blob_json w = Some json_data /\ flatten_top json_data = Some records /\
    records <> [] /\ nrows df1 = length records /\
    Forall (fun c => safe_name c = true) (columns df1) /\
    t = table_id_of w (event_name event) /\ p = project w /\
    df = stamped w (event_name event) df1.
Proof.
  unfold process_json_file.
  destruct (blob_json w) as [json_data|]; simpl.
  2:{ intros H. repeat (apply elem_of_cons in H as [H|H]; [discriminate|]).
      by apply elem_of_nil in H. }
  destruct (flatten_top json_data) as [[|r records]|] eqn:Hflat; simpl.
  1,3: intros H; repeat (apply elem_of_cons in H as [H|H]; [discriminate|]);
       by apply elem_of_nil in H.
  match goal with
  | |- context [load_rows astype w ?n ?rs ?o] =>
      destruct (load_rows_effects astype w n rs o)
        as [Hl|(df1 & out' & final & Hrows & Hw & Hsafe & Hfinal & Hl)]; rewrite Hl; clear Hl
  end.
  - intros H. apply elem_of_app in H as [H|H];
      repeat (apply elem_of_cons in H as [H|H]; [discriminate|]);
      by apply elem_of_nil in H.
  - intros H. apply elem_of_app in H as [H|H].
    { repeat (apply elem_of_cons in H as [H|H]; [discriminate|]).
      by apply elem_of_nil in H. }
    apply elem_of_app in H as [H|H].
    { by apply (writes_nil_not_elem _ _ Hw) in H. }
    apply elem_of_cons in H as [H|H]; [discriminate|].
    apply elem_of_cons in H as [H|H].
    2:{ apply list_elem_of_singleton in H. by destruct Hfinal as [->|[_ ->]]. }
    injection H as -> -> ->. by exists json_data, (r :: records), df1.
Qed.

(** X19. Whatever is sent to the store goes to the table derived from the
    file name, in the project of the client, with one row per flattened
    record, and carries the two provenance columns: [create_date] holds the
    time of the run in every row and [source_file_name] the base name of the
    uploaded file. *)
Theorem process_json_file_written_frame
    (astype : dtype -> Series -> option Series) (w : World) (event : Event)
    (t p : string) (df : DataFrame) :
  ToGbq t p df ∈ (process_json_file astype w event).2 ->
  t = table_id_of w (event_name event) /\ p = project w /\
  exists json_data records,
    blob_json w = Some json_data /\ flatten_top json_data = Some records /\
    records <> [] /\ nrows df = length records /\
    ("create_date", repeat (Timestamp (utcnow w)) (length records)) ∈ data df /\
    ("source_file_name",
     repeat (Val (JStr (basename (event_name event)))) (length records)) ∈ data df.
Proof.
  intros (json_data & records & df1 & Hblob & Hflat & Hne & Hrows & _ & -> & -> & ->)
    %process_json_file_sent.
  split; [done|]. split; [done|]. exists json_data, records.
  split; [done|]. split; [done|]. split; [done|].
  rewrite <- Hrows. unfold stamped. split; [done|]. split.
  - apply frame_set_elem_other; [done|]. apply frame_set_elem.
  - apply frame_set_elem.
Qed.

Lemma process_json_file_written_frame_witness :
  exists df,
    ToGbq "proj.analytics.sales_report_2024_01" "proj" df ∈
      (process_json_file astype_sample (sample_world (JObj [("id", JInt 7)]))
         sample_event).2 /\
    nrows df = 1 /\
    ("source_file_name", [Val (JStr "sales_report_2024_01_15_103000.json")]) ∈ data df.
Proof.
  eexists. split; [do 6 right; left|].
  destruct (process_json_file_written_frame astype_sample
              (sample_world (JObj [("id", JInt 7)])) sample_event
              _ _ _ ltac:(do 6 right; left))
    as (_ & _ & json_data & records & Hblob & Hflat & _ & Hrows & _ & Hsrc).
  injection Hblob as <-. injection Hflat as <-. split; [exact Hrows|exact Hsrc].
Defined.

(** X20. The function returns a value only for an empty source: a run that
    writes, and a run that fails, both return nothing. *)
Theorem process_json_file_returns
    (astype : dtype -> Series -> option Series) (w : World) (event : Event)
    (r : string * Z) :
  (process_json_file astype w event).1 = Some r <->
  r = (empty_source_line (event_name event), 200%Z) /\
  exists json_data, blob_json w = Some json_data /\ flatten_top json_data = Some [].
Proof.
  unfold process_json_file.
  destruct (blob_json w) as [json_data|]; simpl.
  2:{ split; [done|]. by intros (_ & j & ? & _). }
  destruct (flatten_top json_data) as [[|r0 records]|] eqn:E; simpl.
  - split; [intros [= <-]; split; [done|by exists json_data]|by intros [-> _]].
  - split; [done|]. intros (_ & j & [= <-] & Hj). congruence.
  - split; [done|]. intros (_ & j & [= <-] & Hj). congruence.
Qed.

(** X21. Every column label that reaches the store meets the output
    conditions of the sanitizer: the labels taken from the document have been
    sanitized, and the two provenance labels are safe as they are. *)
Theorem process_json_file_written_labels
    (astype : dtype -> Series -> option Series) (w : World) (event : Event)
    (t p : string) (df : DataFrame) :
  ToGbq t p df ∈ (process_json_file astype w event).2 ->
  Forall (fun c => safe_name c = true) (columns df).
Proof.
  intros (json_data & records & df1 & _ & _ & _ & _ & Hsafe & _ & _ & ->)
    %process_json_file_sent.
  rewrite Forall_forall in Hsafe |- *. unfold stamped. intros c Hc.
  apply columns_frame_set_elem in Hc as [->|Hc]; [done|].
  apply columns_frame_set_elem in Hc as [->|Hc]; [done|]. by apply Hsafe.
Qed.

Lemma process_json_file_written_labels_witness :
  exists df,
    ToGbq "proj.analytics.sales_report_2024_01" "proj" df ∈
      (process_json_file astype_sample
         (sample_world (JObj [("Unit price (%)", JInt 7); ("a/b", JNull)]))
         sample_event).2 /\
    columns df = ["Unit_price_percent"; "a_per_b"; "create_date"; "source_file_name"] /\
    Forall (fun c => safe_name c = true) (columns df).
Proof.
  eexists. split; [do 6 right; left|]. split; [reflexivity|].
  eapply (process_json_file_written_labels astype_sample
            (sample_world (JObj [("Unit price (%)", JInt 7); ("a/b", JNull)]))
            sample_event).
  do 6 right; left.
Defined.

(** ** Table name: splitting, joining and the expected file names *)

Section SplitJoin.

Variable x : ascii.

Lemma str_split_cons_sep s : str_split x (String x s) = EmptyString :: str_split x s.
Proof. simpl. by rewrite Ascii.eqb_refl. Qed.

(** Splitting distributes over a separator in the middle. *)
Lemma str_split_app a b :
  str_split x (a +:+ String x b) = str_split x a ++ str_split x b.
Proof.
  induction a as [|c a IH].
  - change (EmptyString +:+ String x b) with (String x b). by rewrite str_split_cons_sep.
  - change (String c a +:+ String x b) with (String c (a +:+ String x b)). simpl.
    rewrite IH. destruct (Ascii.eqb c x); [done|].
    destruct (str_split x a) as [|p ps] eqn:E; [by destruct (str_split_not_nil x a)|done].
Qed.

(** A text without the separator is one piece. *)
Lemma str_split_none s : contains_char x s = false -> str_split x s = [s].
Proof.
  induction s as [|c s IH]; [done|]. rewrite contains_char_cons.
  intros [Hc Hs]%orb_false_elim. simpl. rewrite Ascii.eqb_sym, Hc. by rewrite IH.
Qed.

(** Joining the pieces with the separator gives the text back. *)
Lemma str_join_split s : str_join (String x EmptyString) (str_split x s) = s.
Proof.
  induction s as [|c s IH]; [done|]. simpl.
  destruct (str_split x s) as [|p ps] eqn:E; [by destruct (str_split_not_nil x s)|].
  destruct (Ascii.eqb_spec c x) as [->|Hne].
  - change (str_join (String x EmptyString) (EmptyString :: p :: ps)) with
      (EmptyString +:+ String x EmptyString +:+ str_join (String x EmptyString) (p :: ps)).
    by rewrite IH.
  - destruct ps as [|q ps]; simpl in *; [by rewrite IH|].
    change (String c p +:+ ?t) with (String c (p +:+ t)). by rewrite IH.
Qed.

End SplitJoin.

Section TableNameMore.

Lemma basename_in_dir dir file :
  contains_char "/"%char file = false -> basename (dir +:+ String "/"%char file) = file.
Proof.
  intros H. unfold basename. rewrite str_split_app, (str_split_none _ file H).
  apply List.last_last.
Qed.

Lemma drop_last_two_app {A} (l : list A) a b : drop_last_two (l ++ [a; b]) = l.
Proof.
  unfold drop_last_two. rewrite length_app. simpl.
  replace (length l + 2 - 2) with (length l) by lia. by rewrite take_app_length.
Qed.

End TableNameMore.

(** X22. The directory part of the object path has no influence on the table
    name: only the text after the last [/] counts. *)
Theorem table_name_of_ignores_directory (dir file : string) :
  contains_char "/"%char file = false ->
  table_name_of (dir +:+ String "/"%char file) = table_name_of file.
Proof.
  intros H. unfold table_name_of.
  rewrite basename_in_dir by done.
  unfold basename. by rewrite (str_split_none _ file H).
Qed.

Lemma table_name_of_ignores_directory_witness :
  table_name_of ("landing/2024" +:+ String "/"%char "orders_eu_20240115_103000.json") =
  "orders_eu".
Proof.
  rewrite (table_name_of_ignores_directory "landing/2024"
             "orders_eu_20240115_103000.json" eq_refl).
  reflexivity.
Defined.

(** X23. For a file named [<table>_<date>_<time>.<ext>], where the date and
    the time hold no underscore and nothing before the extension holds a dot
    or a slash, the table name is [<table>], underscores inside it
    included. *)
Theorem table_name_of_timestamped
    (dir table date time ext : string) :
  contains_char "."%char table = false -> contains_char "/"%char table = false ->
  contains_char "_"%char date = false -> contains_char "."%char date = false ->
  contains_char "/"%char date = false ->
  contains_char "_"%char time = false -> contains_char "."%char time = false ->
  contains_char "/"%char time = false ->
  contains_char "/"%char ext = false ->
  table_name_of
    (dir +:+ String "/"%char
       (table +:+ String "_"%char (date +:+ String "_"%char (time +:+ String "."%char ext)))) =
  table.
Proof.
  intros Ht1 Ht2 Hd1 Hd2 Hd3 Hm1 Hm2 Hm3 He.
  set (stem := table +:+ String "_"%char (date +:+ String "_"%char time)).
  assert (Hfile : table +:+ String "_"%char
                    (date +:+ String "_"%char (time +:+ String "."%char ext)) =
                  stem +:+ String "."%char ext).
  { unfold stem. rewrite !string_app_assoc.
    change (String "_"%char ?a +:+ ?b) with (String "_"%char (a +:+ b)).
    by rewrite !string_app_assoc. }
  assert (Hstem_dot : contains_char "."%char stem = false).
  { unfold stem. rewrite contains_char_app, contains_char_cons, contains_char_app,
      contains_char_cons, Ht1, Hd2, Hm2. done. }
  assert (Hstem_slash : contains_char "/"%char stem = false).
  { unfold stem. rewrite contains_char_app, contains_char_cons, contains_char_app,
      contains_char_cons, Ht2, Hd3, Hm3. done. }
  rewrite Hfile. unfold table_name_of.
  rewrite basename_in_dir
    by (by rewrite contains_char_app, contains_char_cons, Hstem_slash, He).
  rewrite str_split_app, (str_split_none _ stem Hstem_dot). simpl List.hd.
  unfold stem. rewrite !str_split_app.
  rewrite (str_split_none _ date Hd1), (str_split_none _ time Hm1).
  change ([date] ++ [time]) with [date; time].
  rewrite drop_last_two_app. apply (str_join_split "_"%char).
Qed.

Lemma table_name_of_timestamped_witness :
  table_name_of
    ("landing" +:+ String "/"%char
       ("sales_report" +:+ String "_"%char
          ("20240115" +:+ String "_"%char ("103000" +:+ String "."%char "json")))) =
  "sales_report".
Proof.
  apply table_name_of_timestamped; reflexivity.
Defined.

(** X24. A base name with fewer than three underscore-separated segments
    before its first dot gets the empty table name: nothing is validated. *)
Theorem table_name_of_too_short (file_name : string) :
  count_char "_"%char (List.hd EmptyString (str_split "."%char (basename file_name))) <= 1 ->
  table_name_of file_name = EmptyString.
Proof.
  intros H. unfold table_name_of, drop_last_two.
  rewrite str_split_length.
  replace (_ - 2) with 0 by lia. done.
Qed.

Lemma table_name_of_too_short_witness :
  table_name_of "uploads/customers_20240115.json" = EmptyString.
Proof.
  apply table_name_of_too_short. vm_compute. lia.
Defined.
